(** * dandi.upload: the replace decision, the per-asset job and the batch loop

    A shallow embedding of [src/dandi/upload.py]: [check_replace_asset],
    [skip_file], [error_file], the generator [process_path] nested in
    [upload], the dispatch loop of [upload] and its final phase
    (re-raise of the first error, optional delete-sync).

    Conventions.
    - Python [datetime] values are integers (a position on the time line);
      [ensure_datetime] is the identity on them.
    - A Python [dict] with string keys written as a literal is an
      association list in the order of the literal.
    - Exceptions are a class, with the classes derived from it, and the
      text of [str(exc)].
    - A generator is run to exhaustion by its consumer; its yields are
      collected in order.
    - Logging calls ([lgr.*]) have no effect on the modelled state. *)

From stdpp Require Import gmap strings list.
From Stdlib Require Import ZArith.

#[local] Set Warnings "-clear-no-such-hyp".
Local Open Scope Z_scope.

(** ** Python values, dictionaries, exceptions *)

Abbreviation datetime := Z (only parsing).

(** Exception classes that the code raises or names in an [except] clause.
    [SubclassOf c] stands for a class derived from [c] that is none of the
    named ones (as [json.JSONDecodeError] is for [ValueError]);
    [OtherError] stands for a subclass of [Exception] that derives from none
    of the named ones. *)
Inductive exn_class : Set :=
  | AssertionError | FileExistsError | FileNotFoundError | KeyError
  | NotFoundError | TypeError | UploadError | ValueError | OtherError
  | SubclassOf (c : exn_class).

Record exn : Set := Exn { exc_class : exn_class; str_exc : string }.

Fixpoint exn_class_eqb (a b : exn_class) : bool :=
  match a, b with
  | AssertionError, AssertionError | FileExistsError, FileExistsError
  | FileNotFoundError, FileNotFoundError | KeyError, KeyError
  | NotFoundError, NotFoundError | TypeError, TypeError
  | UploadError, UploadError | ValueError, ValueError
  | OtherError, OtherError => true
  | SubclassOf a', SubclassOf b' => exn_class_eqb a' b'
  | _, _ => false
  end.

(** [issubclass(a, b)] among the modelled classes: the named ones do not
    derive from one another. *)
Fixpoint issubclass (a b : exn_class) : bool :=
  exn_class_eqb a b
  || match a with
     | SubclassOf a' => issubclass a' b
     | _ => false
     end.

(** Whether [except c] catches [e]: the class of [e] is [c] or derives from
    it. *)
Definition is_instance (e : exn) (c : exn_class) : bool :=
  issubclass (exc_class e) c.

(** [misctypes.Digest]: the algorithm (by the [.value] of its enum member)
    and the digest value. *)
Record Digest : Set := { algorithm : string; value : string }.

(** What [RemoteAsset.get_raw_metadata()] returns, restricted to the two
    keys that are read: ["blobDateModified"] (absent is [None]) and
    ["digest"], a dict from algorithm to value (absent is the empty dict,
    as in [metadata.get("digest", {})]). *)
Record RawMetadata : Type :=
  { blobDateModified : option datetime; digest : gmap string string }.

Record RemoteAsset : Type :=
  { asset_path : string; get_raw_metadata : RawMetadata }.

Inductive pyval : Type :=
  | VStr (s : string)
  | VInt (n : Z)
  | VAsset (a : RemoteAsset).

Abbreviation dict := (list (string * pyval)) (only parsing).

Fixpoint dict_get (k : string) (d : dict) : option pyval :=
  match d with
  | [] => None
  | (k', v) :: d' => if String.eqb k k' then Some v else dict_get k d'
  end.

(** [d.pop(k, None)] and [d.pop(k)] where the key is present: the dict
    without the key. *)
Fixpoint dict_del (k : string) (d : dict) : dict :=
  match d with
  | [] => []
  | (k', v) :: d' => if String.eqb k k' then dict_del k d' else (k', v) :: dict_del k d'
  end.

Definition pyval_is_str (v : pyval) (s : string) : bool :=
  match v with VStr s' => String.eqb s' s | _ => false end.

(** [repr] of a [str] that holds no quote, backslash or unprintable
    character. *)
Definition py_repr (s : string) : string := "'" +:+ s +:+ "'".

(** ** Local files *)

(** Modelled from the spec: the class hierarchy of [dandi.files] is not
    among the sources.  The spec's asset variants are MetadataAsset,
    SimpleLocalAsset, DirectoryAsset and ChunkedAsset; the chunked one is
    the source's [ZarrAsset], a directory-style asset. *)
Inductive FileKind : Set :=
  | DandisetMetadataFile | LocalFileAsset | LocalDirectoryAsset | ZarrAsset.

(** Modelled from the spec: [validate_types.Severity] is not among the
    sources; only [ERROR] is told apart. *)
Inductive Severity : Set := ERROR | WARNING | HINT.

Record ValidationResult : Set := { severity : Severity; message : string }.

Definition Metadata : Set := string.

(** A [DandiFile] with the answers of its methods.  A method that may raise
    carries [inl exc]; the methods are deterministic within one run. *)
Record DandiFile : Type := {
  kind : FileKind;
  filepath : string;                        (* str(dfile.filepath) *)
  path : string;                            (* dfile.path *)
  file_size : exn + Z;                      (* the property dfile.size *)
  modified : datetime;
  get_validation_errors : exn + list ValidationResult;
  get_digest : exn + Digest;
  (* get_metadata(digest=, ignore_errors=).json_dict() *)
  get_metadata : option Digest -> bool -> exn + Metadata;
  (* iter_upload(remote_dandiset, metadata, jobs=, replacing=): the records
     it yields and the exception that ends it, if any *)
  iter_upload : Metadata -> option Z -> option RemoteAsset -> list dict * option exn
}.

Definition isinstance_DandisetMetadataFile (f : DandiFile) : bool :=
  match kind f with DandisetMetadataFile => true | _ => false end.

Definition isinstance_LocalAsset (f : DandiFile) : bool :=
  match kind f with DandisetMetadataFile => false | _ => true end.

Definition isinstance_LocalDirectoryAsset (f : DandiFile) : bool :=
  match kind f with LocalDirectoryAsset | ZarrAsset => true | _ => false end.

Definition isinstance_ZarrAsset (f : DandiFile) : bool :=
  match kind f with ZarrAsset => true | _ => false end.

(** ** [skip_file], [error_file] *)

Definition skip_file (msg : string) : dict :=
  [("status", VStr "skipped"); ("message", VStr msg)].

Definition error_file (msg : string) : dict :=
  [("status", VStr "ERROR"); ("message", VStr msg)].

(** ** [check_replace_asset] *)

(** [remote_etag == local_etag.value], where [remote_etag] is [None] when
    the remote metadata has no digest for the algorithm. *)
Definition etag_eq (remote_etag : option string) (local_value : string) : bool :=
  match remote_etag with
  | Some r => String.eqb r local_value
  | None => false
  end.

Definition remote_etag_of (remote_asset : RemoteAsset) (local_etag : Digest) : option string :=
  digest (get_raw_metadata remote_asset) !! algorithm local_etag.

(** The conditional expression that computes [remote_file_status]. *)
Definition remote_file_status (remote_etag : option string) (local_value : string)
    (remote_mtime_str : option datetime) (local_mtime : datetime) : string :=
  match remote_mtime_str with
  | Some remote_mtime =>
      if etag_eq remote_etag local_value && (remote_mtime =? local_mtime)%Z then "same"
      else if (remote_mtime >? local_mtime)%Z then "newer"
      else if (remote_mtime <? local_mtime)%Z then "older"
      else "diff"
  | None => "no mtime"
  end.

Definition exists_msg_of (status : string) : string := "exists (" +:+ status +:+ ")".

Definition check_replace_asset (local_asset : DandiFile) (remote_asset : RemoteAsset)
    (existing : string) (local_etag : option Digest) : exn + (bool * dict) :=
  if isinstance_ZarrAsset local_asset then
    inr (true, [("message", VStr "exists - reuploading")])
  else
    match local_etag with
    | None => inl (Exn AssertionError "")
    | Some local_etag =>
        let metadata := get_raw_metadata remote_asset in
        let local_mtime := modified local_asset in
        let remote_mtime_str := blobDateModified metadata in
        let remote_etag := digest metadata !! algorithm local_etag in
        let remote_mtime := remote_mtime_str in
        let remote_file_status :=
          remote_file_status remote_etag (value local_etag) remote_mtime_str local_mtime in
        let exists_msg := exists_msg_of remote_file_status in
        if String.eqb existing "error" then
          inl (Exn FileExistsError exists_msg)
        else if String.eqb existing "skip" then
          inr (false, skip_file exists_msg)
        else
          let reupload := inr (true, [("message", VStr (exists_msg +:+ " - reuploading"))]) in
          if String.eqb existing "overwrite" then
            if etag_eq remote_etag (value local_etag) then inr (false, skip_file exists_msg)
            else reupload
          else if String.eqb existing "refresh" then
            if etag_eq remote_etag (value local_etag) then inr (false, skip_file "file exists")
            else
              match remote_mtime with
              | Some rm =>
                  if (rm >=? local_mtime)%Z then inr (false, skip_file exists_msg)
                  else reupload
              | None => reupload
              end
          else if String.eqb existing "force" then reupload
          else inl (Exn ValueError ("invalid value for 'existing': " +:+ py_repr existing))
    end.

(** ** The state shared by the jobs of one run *)

(** The [TypedDict] [Uploaded]; [size] holds whatever the transfer reported
    as ["current"]. *)
Record Uploaded : Type := { Uploaded_size : pyval; Uploaded_errors : list string }.

(** Calls on the external collaborators, in the order they are made. *)
Inductive call : Set :=
  | GetValidationErrors (p : string)
  | GetDigest (p : string)
  | GetAssetByPath (p : string)
  | GetMetadata (p : string)
  | IterUpload (p : string)
  | SetRawMetadata
  | Delete (p : string).

(** The variables of [upload] that the nested [process_path] reads and
    rebinds ([nonlocal upload_err, validate_ok]) or mutates, and the log of
    collaborator calls. *)
Record State : Type := {
  upload_err : option exn;
  validate_ok : bool;
  uploaded_paths : gmap string Uploaded;
  process_paths : gset string;
  calls : list call
}.

(** The arguments of [upload] and the collaborators that stay fixed during
    a run. *)
Record Env : Type := {
  existing : string;
  validation : string;
  allow_any_path : bool;
  upload_dandiset_metadata : bool;
  devel_debug : bool;
  jobs_per_file : option Z;
  sync : bool;
  (* os.path.relpath(p, dandiset.path) for each p of paths, in order *)
  paths_relative : list string;
  dandiset_metadata_file : string;                      (* consts.dandiset_metadata_file *)
  dandiset_metadata : option Metadata;                  (* dandiset.metadata *)
  get_asset_by_path : string -> exn + RemoteAsset;      (* remote_dandiset.get_asset_by_path *)
  get_assets_with_path_prefix : string -> list RemoteAsset;
  path_exists : string -> bool;                         (* Path(dandiset.path, p).exists() *)
  path_is_subpath : string -> string -> bool;           (* utils.path_is_subpath *)
  confirm : bool                                        (* the answer to click.confirm *)
}.

(** The [defaultdict] factory [lambda: {"size": 0, "errors": []}]. *)
Definition default_Uploaded : Uploaded :=
  {| Uploaded_size := VInt 0; Uploaded_errors := [] |}.

Definition getitem_default (m : gmap string Uploaded) (k : string) : Uploaded :=
  default default_Uploaded (m !! k).

(** [uploaded_paths[k]["size"] = v] *)
Definition set_size (k : string) (v : pyval) (m : gmap string Uploaded) : gmap string Uploaded :=
  <[k := {| Uploaded_size := v; Uploaded_errors := Uploaded_errors (getitem_default m k) |}]> m.

(** [uploaded_paths[k]["errors"].append(msg)] *)
Definition append_error (k : string) (msg : string) (m : gmap string Uploaded) : gmap string Uploaded :=
  <[k := {| Uploaded_size := Uploaded_size (getitem_default m k);
            Uploaded_errors := Uploaded_errors (getitem_default m k) ++ [msg] |}]> m.

(** ** Generators over the shared state *)

(** How a block of a generator body ends: it falls through, executes
    [return], or raises. *)
Inductive outcome (A : Type) : Type :=
  | Normal (a : A)
  | Returned
  | Raised (e : exn).
Arguments Normal {A} a.
Arguments Returned {A}.
Arguments Raised {A} e.

(** A block maps the state to the records it yields, the new state and its
    outcome. *)
Definition Gen (A : Type) : Type := State -> list dict * State * outcome A.

#[global] Instance Gen_ret : MRet Gen := fun A a s => ([], s, Normal a).

#[global] Instance Gen_bind : MBind Gen := fun A B k m s =>
  match m s with
  | (ys, s', Normal a) => let '(ys', s'', o) := k a s' in (ys ++ ys', s'', o)
  | (ys, s', Returned) => (ys, s', Returned)
  | (ys, s', Raised e) => (ys, s', Raised e)
  end.

Definition yield (r : dict) : Gen unit := fun s => ([r], s, Normal tt).
Definition raise {A} (e : exn) : Gen A := fun s => ([], s, Raised e).
Definition return_ {A} : Gen A := fun s => ([], s, Returned).
Definition gets {A} (f : State -> A) : Gen A := fun s => ([], s, Normal (f s)).
Definition modify (f : State -> State) : Gen unit := fun s => ([], f s, Normal tt).

(** [try: body except Exception as exc: handler exc] *)
Definition try_except {A} (body : Gen A) (handler : exn -> Gen A) : Gen A := fun s =>
  match body s with
  | (ys, s', Raised e) => let '(ys', s'', o) := handler e s' in (ys ++ ys', s'', o)
  | r => r
  end.

(** [try: body finally: fin]; an exception out of [fin] replaces the
    outcome of [body]. *)
Definition try_finally {A} (body : Gen A) (fin : Gen unit) : Gen A := fun s =>
  let '(ys, s', o) := body s in
  match fin s' with
  | (ys', s'', Normal _) => (ys ++ ys', s'', o)
  | (ys', s'', Returned) => (ys ++ ys', s'', Returned)
  | (ys', s'', Raised e) => (ys ++ ys', s'', Raised e)
  end.

(** A call that may raise. *)
Definition lift_result {A} (r : exn + A) : Gen A :=
  match r with inl e => raise e | inr a => mret a end.

Definition log_call (c : call) : Gen unit := modify (fun s =>
  {| upload_err := upload_err s; validate_ok := validate_ok s;
     uploaded_paths := uploaded_paths s; process_paths := process_paths s;
     calls := calls s ++ [c] |}).

Definition set_upload_err (e : exn) : Gen unit := modify (fun s =>
  {| upload_err := Some e; validate_ok := validate_ok s;
     uploaded_paths := uploaded_paths s; process_paths := process_paths s;
     calls := calls s |}).

Definition set_validate_ok (b : bool) : Gen unit := modify (fun s =>
  {| upload_err := upload_err s; validate_ok := b;
     uploaded_paths := uploaded_paths s; process_paths := process_paths s;
     calls := calls s |}).

Definition update_uploaded_paths (f : gmap string Uploaded -> gmap string Uploaded) : Gen unit :=
  modify (fun s =>
  {| upload_err := upload_err s; validate_ok := validate_ok s;
     uploaded_paths := f (uploaded_paths s); process_paths := process_paths s;
     calls := calls s |}).

Definition update_process_paths (f : gset string -> gset string) : State -> State := fun s =>
  {| upload_err := upload_err s; validate_ok := validate_ok s;
     uploaded_paths := uploaded_paths s; process_paths := f (process_paths s);
     calls := calls s |}.

(** [process_paths.remove(strpath)]: [KeyError] when the element is absent. *)
Definition process_paths_remove (strpath : string) : Gen unit := fun s =>
  if bool_decide (strpath ∈ process_paths s) then
    ([], update_process_paths (fun ps => ps ∖ {[strpath]}) s, Normal tt)
  else ([], s, Raised (Exn KeyError (py_repr strpath))).

(** ** [process_path] *)

Definition is_ERROR (s : ValidationResult) : bool :=
  match severity s with ERROR => true | _ => false end.

(** The [for r in dfile.iter_upload(...)] loop over the records [rs];
    [validating] is the local flag of that name. *)
Fixpoint upload_records (strpath : string) (rs : list dict) (validating : bool) : Gen unit :=
  match rs with
  | [] => mret tt
  | r :: rs' =>
      let r := dict_del "asset" r in
      match dict_get "status" r with
      | None => raise (Exn KeyError (py_repr "status"))
      | Some status =>
          if pyval_is_str status "uploading" then
            match dict_get "current" r with
            | None => raise (Exn KeyError (py_repr "current"))
            | Some current =>
                update_uploaded_paths (set_size strpath current);;
                yield (dict_del "current" r);;
                upload_records strpath rs' validating
            end
          else if pyval_is_str status "post-validating" then
            if validating then upload_records strpath rs' validating
            else yield r;; upload_records strpath rs' true
          else yield r;; upload_records strpath rs' validating
      end
  end.

(** The statements of [process_path] inside its outer [try]. *)
Definition process_path_body (env : Env) (dfile : DandiFile) : Gen unit :=
  let strpath := filepath dfile in
  (if negb (isinstance_LocalDirectoryAsset dfile) then
     match file_size dfile with
     | inr n => yield [("size", VInt n)]
     | inl exc =>
         if is_instance exc FileNotFoundError then raise (Exn UploadError "File not found")
         else raise (Exn UploadError (String.substring 0 50 (str_exc exc)))
     end
   else mret tt);;
  (if isinstance_LocalAsset dfile && negb (String.eqb (validation env) "skip") then
     yield [("status", VStr "pre-validating")];;
     log_call (GetValidationErrors (filepath dfile));;
     validation_statuses ← lift_result (get_validation_errors dfile);
     let validation_errors := filter (fun s => is_ERROR s = true) validation_statuses in
     yield [("errors", VInt (Z.of_nat (length validation_errors)))];;
     match validation_errors with
     | _ :: _ =>
         if String.eqb (validation env) "require" then
           set_validate_ok false;;
           raise (Exn UploadError "failed validation")
         else mret tt
     | [] => yield [("status", VStr "validated")]
     end
   else mret tt);;
  (if isinstance_DandisetMetadataFile dfile then
     (if upload_dandiset_metadata env then
        yield [("status", VStr "updating metadata")];;
        match dandiset_metadata env with
        | None => raise (Exn AssertionError "")
        | Some _ =>
            log_call SetRawMetadata;;
            yield [("status", VStr "updated metadata")]
        end
      else yield (skip_file "should be edited online"));;
     return_
   else mret tt);;
  (if isinstance_LocalAsset dfile then mret tt else raise (Exn AssertionError ""));;
  file_etag ←
    (if isinstance_ZarrAsset dfile then mret None
     else
       yield [("status", VStr "digesting")];;
       log_call (GetDigest (filepath dfile));;
       match get_digest dfile with
       | inr d => mret (Some d)
       | inl exc =>
           raise (Exn UploadError ("failed to compute digest: " +:+ str_exc exc))
       end);
  log_call (GetAssetByPath (path dfile));;
  extant ←
    match get_asset_by_path env (path dfile) with
    | inl exc =>
        if is_instance exc NotFoundError then mret None else raise exc
    | inr extant =>
        '(replace, out) ← lift_result
            (check_replace_asset dfile extant (existing env) file_etag);
        yield out;;
        if negb replace then return_ else mret (Some extant)
    end;
  yield [("status", VStr "extracting metadata")];;
  log_call (GetMetadata (filepath dfile));;
  metadata ←
    match get_metadata dfile file_etag (allow_any_path env) with
    | inr m => mret m
    | inl e => raise (Exn UploadError ("failed to extract metadata: " +:+ str_exc e))
    end;
  yield [("status", VStr "uploading")];;
  log_call (IterUpload (filepath dfile));;
  let '(rs, end_exc) := iter_upload dfile metadata (jobs_per_file env) extant in
  upload_records (filepath dfile) rs false;;
  match end_exc with
  | Some e => raise e
  | None => yield [("status", VStr "done")]
  end.

(** The [except Exception as exc] clause of [process_path]. *)
Definition process_path_handler (env : Env) (dfile : DandiFile) (exc : exn) : Gen unit :=
  let strpath := filepath dfile in
  err ← gets upload_err;
  (match err with None => set_upload_err exc | Some _ => mret tt end);;
  (if devel_debug env then raise exc else mret tt);;
  let message := str_exc exc in
  update_uploaded_paths (append_error strpath message);;
  yield (error_file message).

Definition process_path (env : Env) (dfile : DandiFile) : Gen unit :=
  try_finally
    (try_except (process_path_body env dfile) (process_path_handler env dfile))
    (process_paths_remove (filepath dfile)).

(** ** The dispatch loop of [upload] *)

(** The cap of the admission test [len(process_paths) >= 10] and the
    argument of [time.sleep(0.5)], in milliseconds. *)
Definition max_in_flight : nat := 10.
Definition poll_interval_ms : Z := 500.

(** [process_paths.add(str(dfile.filepath))] *)
Definition process_paths_add (dfile : DandiFile) (s : State) : State :=
  update_process_paths (fun ps => ps ∪ {[filepath dfile]}) s.

(** The initial [rec] of a file. *)
Definition rec_of (env : Env) (dfile : DandiFile) : dict :=
  if isinstance_DandisetMetadataFile dfile then [("path", VStr (dandiset_metadata_file env))]
  else [("path", VStr (path dfile))].

(** A row handed to [out]: the static part of [rec] and the records of the
    file's generator. *)
Definition Row : Type := (list (string * pyval) * list (list (string * pyval)))%type.

(** *** Serial execution ([devel_debug]) *)

Inductive loop_result : Type :=
  | Finished (rows : list Row) (s : State)
  (* an exception left the [for] loop; [printed] are the records printed for
     the file that raised *)
  | Propagated (e : exn) (rows : list Row) (printed : list dict) (s : State)
  (* the admission test holds and nothing runs that could end it *)
  | Blocked (rows : list Row) (s : State).

(** The [for dfile in dandi_files] loop when every generator is consumed
    inside the loop body ([for v in process_path(dfile): print(...)]). *)
Fixpoint upload_serial (env : Env) (dandi_files : list DandiFile) (s : State)
    (rows : list Row) : loop_result :=
  match dandi_files with
  | [] => Finished rows s
  | dfile :: rest =>
      if (max_in_flight <=? size (process_paths s))%nat then Blocked rows s
      else
        let s1 := process_paths_add dfile s in
        let rec := rec_of env dfile in
        match process_path env dfile s1 with
        | (ys, s2, Raised exc) =>
            if is_instance exc ValueError then
              upload_serial env rest s2 (rows ++ [(rec ++ error_file (str_exc exc), ys)])
            else Propagated exc rows ys s2
        | (ys, s2, _) => upload_serial env rest s2 (rows ++ [(rec, ys)])
        end
  end.

(** *** Concurrent execution (the default) *)

(** The loop hands each generator to [out]; the worker pool of [out]
    consumes it later.  A generator is consumed in one step here, at the
    moment it is exhausted: the jobs of different files share only the
    variables of [State], each written at most once per job per key. *)
Record Sched : Type := {
  pending : list DandiFile;                  (* not yet reached by the [for] loop *)
  in_flight : list DandiFile;                (* handed to [out], generator not exhausted *)
  finished : list (DandiFile * list dict);   (* exhausted, in that order, with the records *)
  shared : State;
  waited_ms : Z                              (* total of the [time.sleep] calls *)
}.

Definition initial_State : State :=
  {| upload_err := None; validate_ok := true; uploaded_paths := ∅;
     process_paths := ∅; calls := [] |}.

Definition initial_Sched (dandi_files : list DandiFile) : Sched :=
  {| pending := dandi_files; in_flight := []; finished := [];
     shared := initial_State; waited_ms := 0 |}.

(** The loop body for [dfile] when the admission test fails at once. *)
Definition dispatched (dfile : DandiFile) (rest : list DandiFile) (σ : Sched) : Sched :=
  {| pending := rest; in_flight := in_flight σ ++ [dfile]; finished := finished σ;
     shared := process_paths_add dfile (shared σ); waited_ms := waited_ms σ |}.

(** One [time.sleep(0.5)] of the admission loop. *)
Definition slept (σ : Sched) : Sched :=
  {| pending := pending σ; in_flight := in_flight σ; finished := finished σ;
     shared := shared σ; waited_ms := waited_ms σ + poll_interval_ms |}.


(** The generator of [dfile] is exhausted; [l1] and [l2] are the other
    files in flight. *)
Definition exhausted (env : Env) (l1 : list DandiFile) (dfile : DandiFile)
    (l2 : list DandiFile) (σ : Sched) : Sched :=
  let r := process_path env dfile (shared σ) in
  {| pending := pending σ; in_flight := l1 ++ l2;
     finished := finished σ ++ [(dfile, r.1.1)];
     shared := r.1.2; waited_ms := waited_ms σ |}.

Inductive step (env : Env) : Sched -> Sched -> Prop :=
  | step_dispatch σ dfile rest :
      pending σ = dfile :: rest ->
      (size (process_paths (shared σ)) < max_in_flight)%nat ->
      step env σ (dispatched dfile rest σ)
  | step_sleep σ dfile rest :
      pending σ = dfile :: rest ->
      (max_in_flight <= size (process_paths (shared σ)))%nat ->
      step env σ (slept σ)
  | step_job σ l1 dfile l2 :
      in_flight σ = l1 ++ dfile :: l2 ->
      step env σ (exhausted env l1 dfile l2 σ).

Inductive steps (env : Env) : Sched -> Sched -> Prop :=
  | steps_refl σ : steps env σ σ
  | steps_step σ1 σ2 σ3 : steps env σ1 σ2 -> step env σ2 σ3 -> steps env σ1 σ3.

(** The [with out:] block is left when every file was handed over and every
    generator is exhausted. *)
Definition all_done (σ : Sched) : Prop := pending σ = [] ∧ in_flight σ = [].

(** ** After the loop: re-raise, delete-sync *)

(** [functools.reduce(function, iterable)] without initial value. *)
Definition reduce {A} (function : A -> A -> exn + A) (iterable : list A) : exn + A :=
  match iterable with
  | [] => inl (Exn TypeError "reduce() of empty iterable with no initial value")
  | x :: rest =>
      fold_left (fun acc y => match acc with inl e => inl e | inr a => function a y end)
                rest (inr x)
  end.

(** [os.path.commonprefix(m)] has the single parameter [m], a list of
    path names; [reduce] calls its function with two positional arguments,
    so the call raises before the body of [commonprefix] runs. *)
Definition os_path_commonprefix_2 (a b : string) : exn + string :=
  inl (Exn TypeError "commonprefix() takes 1 positional argument but 2 were given").

Definition relpaths_of (env : Env) : list string :=
  map (fun rp => if String.eqb rp "." then "" else rp) (paths_relative env).

Definition to_delete_of (env : Env) (relpaths : list string) (path_prefix : string)
    : list RemoteAsset :=
  filter (fun asset =>
            existsb (fun p => String.eqb p "" || path_is_subpath env (asset_path asset) p)
                    relpaths
            && negb (path_exists env (asset_path asset)) = true)
         (get_assets_with_path_prefix env path_prefix).

Definition log_calls (cs : list call) (s : State) : State :=
  {| upload_err := upload_err s; validate_ok := validate_ok s;
     uploaded_paths := uploaded_paths s; process_paths := process_paths s;
     calls := calls s ++ cs |}.

(** The [if sync:] block. *)
Definition delete_sync (env : Env) (s : State) : exn + State :=
  let relpaths := relpaths_of env in
  match reduce os_path_commonprefix_2 relpaths with
  | inl e => inl e
  | inr path_prefix =>
      let to_delete := to_delete_of env relpaths path_prefix in
      match to_delete with
      | [] => inr s
      | _ :: _ =>
          if confirm env then inr (log_calls (map (fun a => Delete (asset_path a)) to_delete) s)
          else inr s
      end
  end.

(** The statements of [upload] after the [with out:] block. *)
Definition upload_finish (env : Env) (s : State) : exn + State :=
  match upload_err s with
  | Some e => inl e
  | None => if sync env then delete_sync env s else inr s
  end.

(** [upload] with [devel_debug], from the file loop on; [None] when the
    loop never ends. *)
Definition upload_debug (env : Env) (dandi_files : list DandiFile) : option (exn + State) :=
  match upload_serial env dandi_files initial_State [] with
  | Finished _ s => Some (upload_finish env s)
  | Propagated e _ _ _ => Some (inl e)
  | Blocked _ _ => None
  end.

(** ** Concrete files, remote records and runs *)

Module Examples.

Definition etag (v : string) : Digest :=
  {| algorithm := "dandi:dandi-etag"; value := v |}.

(** A remote record at [p] with the given modification time and etag. *)
Definition remote (p : string) (mtime : option datetime) (v : string) : RemoteAsset :=
  {| asset_path := p;
     get_raw_metadata :=
       {| blobDateModified := mtime; digest := {[ "dandi:dandi-etag" := v ]} |} |}.

(** A transfer that reports progress twice and post-validates twice. *)
Definition transfer : list dict * option exn :=
  ([ [("status", VStr "uploading"); ("current", VInt 50)];
     [("status", VStr "uploading"); ("current", VInt 100)];
     [("status", VStr "post-validating")];
     [("status", VStr "post-validating")] ], None).

(** A healthy local file of 100 bytes. *)
Definition file (k : FileKind) (p : string) (mtime : datetime) (v : string) : DandiFile :=
  {| kind := k; filepath := "/ds/" +:+ p; path := p; file_size := inr 100;
     modified := mtime; get_validation_errors := inr [];
     get_digest := inr (etag v);
     get_metadata := fun _ _ => inr "{}";
     iter_upload := fun _ _ _ => transfer |}.

(** A remote collection that holds [assets]. *)
Definition lookup (assets : list RemoteAsset) (p : string) : exn + RemoteAsset :=
  match find (fun a => String.eqb (asset_path a) p) assets with
  | Some a => inr a
  | None => inl (Exn NotFoundError "No asset at path")
  end.

Definition env (policy : string) (debug : bool) (assets : list RemoteAsset) : Env :=
  {| existing := policy; validation := "require"; allow_any_path := false;
     upload_dandiset_metadata := false; devel_debug := debug;
     jobs_per_file := None; sync := false; paths_relative := ["."];
     dandiset_metadata_file := "dandiset.yaml"; dandiset_metadata := None;
     get_asset_by_path := lookup assets;
     get_assets_with_path_prefix := fun _ => assets;
     path_exists := fun _ => true;
     path_is_subpath := fun p q => String.prefix (q +:+ "/") p;
     confirm := true |}.

(** The same run with delete-sync requested for the given input paths. *)
Definition env_sync (policy : string) (rps : list string) (assets : list RemoteAsset) : Env :=
  {| existing := policy; validation := "require"; allow_any_path := false;
     upload_dandiset_metadata := false; devel_debug := false;
     jobs_per_file := None; sync := true; paths_relative := rps;
     dandiset_metadata_file := "dandiset.yaml"; dandiset_metadata := None;
     get_asset_by_path := lookup assets;
     get_assets_with_path_prefix :=
       fun prefix => filter (fun a => String.prefix prefix (asset_path a) = true) assets;
     path_exists := fun p => bool_decide (p ∈ ["sub-01/a.nwb"; "sub-02/b.nwb"]);
     path_is_subpath := fun p q => String.prefix (q +:+ "/") p;
     confirm := true |}.

Definition nwb : DandiFile := file LocalFileAsset "sub-01/a.nwb" 1000 "d1".
(** Remote records at the path of [nwb]: the same content and time, other
    content written later, other content written earlier. *)
Definition same : RemoteAsset := remote "sub-01/a.nwb" (Some 1000) "d1".
Definition newer : RemoteAsset := remote "sub-01/a.nwb" (Some 2000) "d0".
Definition older : RemoteAsset := remote "sub-01/a.nwb" (Some 500) "d0".
Definition nwb2 : DandiFile := file LocalFileAsset "sub-02/b.nwb" 1000 "d2".
Definition zarr : DandiFile := file ZarrAsset "sub-01/c.zarr" 1000 "z1".

(** Files that fail at one step: the size cannot be read, the validation
    finds an error, the metadata cannot be extracted; and the metadata file
    of the dandiset. *)
Definition unreadable : DandiFile :=
  {| kind := LocalFileAsset; filepath := "/ds/sub-03/gone.nwb"; path := "sub-03/gone.nwb";
     file_size := inl (Exn FileNotFoundError "[Errno 2] No such file or directory");
     modified := 1000; get_validation_errors := inr [];
     get_digest := inr (etag "d3");
     get_metadata := fun _ _ => inr "{}";
     iter_upload := fun _ _ _ => transfer |}.

Definition invalid : DandiFile :=
  {| kind := LocalFileAsset; filepath := "/ds/sub-04/bad.nwb"; path := "sub-04/bad.nwb";
     file_size := inr 100; modified := 1000;
     get_validation_errors :=
       inr [ {| severity := WARNING; message := "no subject" |};
             {| severity := ERROR; message := "not an NWB file" |} ];
     get_digest := inr (etag "d4");
     get_metadata := fun _ _ => inr "{}";
     iter_upload := fun _ _ _ => transfer |}.

Definition unextractable : DandiFile :=
  {| kind := LocalFileAsset; filepath := "/ds/sub-05/x.nwb"; path := "sub-05/x.nwb";
     file_size := inr 100; modified := 1000; get_validation_errors := inr [];
     get_digest := inr (etag "d5");
     get_metadata := fun _ _ => inl (Exn OtherError "cannot read");
     iter_upload := fun _ _ _ => transfer |}.

Definition yaml : DandiFile :=
  {| kind := DandisetMetadataFile; filepath := "/ds/dandiset.yaml"; path := "dandiset.yaml";
     file_size := inr 300; modified := 1000; get_validation_errors := inr [];
     get_digest := inr (etag "d6");
     get_metadata := fun _ _ => inr "{}";
     iter_upload := fun _ _ _ => transfer |}.

(** A default-mode run over [nwb] and [nwb2] under [error], [nwb] having a
    remote record: both files are handed over, the job of [nwb2] ends first,
    then the one of [nwb]. *)
Definition env_error : Env := env "error" false [same].
Definition sched_both : Sched :=
  dispatched nwb2 [] (dispatched nwb [nwb2] (initial_Sched [nwb; nwb2])).




End Examples.

(** The state of a run whose only job so far is the one of [dfile], just
    handed over. *)
Definition started (dfile : DandiFile) : State := process_paths_add dfile initial_State.

Definition yields_of {A} (r : list dict * State * outcome A) : list dict := r.1.1.
Definition state_of {A} (r : list dict * State * outcome A) : State := r.1.2.
Definition outcome_of {A} (r : list dict * State * outcome A) : outcome A := r.2.

(** ** Derived notions used in the statements *)

(** The exception that the body of [process_path] raises for [dfile], if
    any (the body never reads the shared state). *)
Definition job_exc (env : Env) (dfile : DandiFile) : option exn :=
  match outcome_of (process_path_body env dfile initial_State) with
  | Raised e => Some e
  | _ => None
  end.

(** The first error in the order in which the jobs ended. *)
Definition first_error (env : Env) (done : list DandiFile) : option exn :=
  head (omap (job_exc env) done).


(** The entry of [uploaded_paths] that the job of [dfile] leaves when it is
    the only job of the run. *)
Definition outcome_alone (env : Env) (dfile : DandiFile) : option Uploaded :=
  uploaded_paths (state_of (process_path env dfile (started dfile))) !! filepath dfile.

Definition with_existing (policy : string) (env : Env) : Env :=
  {| existing := policy; validation := validation env;
     allow_any_path := allow_any_path env;
     upload_dandiset_metadata := upload_dandiset_metadata env;
     devel_debug := devel_debug env; jobs_per_file := jobs_per_file env;
     sync := sync env; paths_relative := paths_relative env;
     dandiset_metadata_file := dandiset_metadata_file env;
     dandiset_metadata := dandiset_metadata env;
     get_asset_by_path := get_asset_by_path env;
     get_assets_with_path_prefix := get_assets_with_path_prefix env;
     path_exists := path_exists env; path_is_subpath := path_is_subpath env;
     confirm := confirm env |}.

Definition valid_existing (policy : string) : Prop :=
  policy ∈ ["error"; "skip"; "overwrite"; "refresh"; "force"].

(** The file has no remote counterpart, or is a Zarr. *)
Definition new_or_chunked (env : Env) (dfile : DandiFile) : Prop :=
  isinstance_ZarrAsset dfile = true ∨
  ∃ exc, get_asset_by_path env (path dfile) = inl exc ∧ is_instance exc NotFoundError = true.

(** What a block does to the shared state when it neither reads it nor
    touches [upload_err] and [process_paths]: it may clear [validate_ok],
    set the size of one entry of [uploaded_paths], and make calls. *)
Record Effect : Type :=
  { eff_invalid : bool; eff_size : option pyval; eff_calls : list call }.

Definition apply_effect (k : string) (eff : Effect) (s : State) : State :=
  {| upload_err := upload_err s;
     validate_ok := if eff_invalid eff then false else validate_ok s;
     uploaded_paths :=
       match eff_size eff with
       | Some v => set_size k v (uploaded_paths s)
       | None => uploaded_paths s
       end;
     process_paths := process_paths s;
     calls := calls s ++ eff_calls eff |}.

Definition Effect_then (e1 e2 : Effect) : Effect :=
  {| eff_invalid := eff_invalid e1 || eff_invalid e2;
     eff_size := match eff_size e2 with Some v => Some v | None => eff_size e1 end;
     eff_calls := eff_calls e1 ++ eff_calls e2 |}.

Definition uniform {A} (k : string) (m : Gen A) : Prop :=
  ∃ ys eff o, ∀ s, m s = (ys, apply_effect k eff s, o).

(** Every collaborator call that the block makes satisfies [P]. *)
Definition calls_in {A} (P : call -> Prop) (m : Gen A) : Prop :=
  ∀ s, ∃ cs, calls (state_of (m s)) = calls s ++ cs ∧ Forall P cs.

Definition not_GetDigest (c : call) : Prop := ∀ p, c ≠ GetDigest p.

(** Modelled from the spec: the transfer ([iter_upload]) and the remote
    store are not among the sources.  The remote record that a first run
    leaves for a file of an unchanged tree: the record it found, when the
    engine skipped the file; a record that carries the local digest, when
    the file was uploaded (no record before, or the engine replaced it). *)
Definition second_run_remote (local_asset : DandiFile) (existing : string)
    (local_etag : Digest) (first : option RemoteAsset) (second : RemoteAsset) : Prop :=
  match first with
  | None => remote_etag_of second local_etag = Some (value local_etag)
  | Some remote_asset =>
      match check_replace_asset local_asset remote_asset existing (Some local_etag) with
      | inr (false, _) => second = remote_asset
      | inr (true, _) => remote_etag_of second local_etag = Some (value local_etag)
      | inl _ => False
      end
  end.

(** The invariant of the concurrent loop over [dandi_files]. *)
Record Inv (env : Env) (dandi_files : list DandiFile) (σ : Sched) : Prop := {
  inv_perm : dandi_files ≡ₚ (finished σ).*1 ++ in_flight σ ++ pending σ;
  inv_paths : process_paths (shared σ) = list_to_set (filepath <$> in_flight σ);
  inv_err : upload_err (shared σ) = first_error env (finished σ).*1;
  inv_done : ∀ f, f ∈ (finished σ).*1 ->
             uploaded_paths (shared σ) !! filepath f = outcome_alone env f;
  inv_todo : ∀ f, f ∈ in_flight σ ++ pending σ ->
             uploaded_paths (shared σ) !! filepath f = None;
  inv_waited : ∃ n : nat, waited_ms σ = Z.of_nat n * poll_interval_ms
}.

(** ** The files that [upload] considers *)



(** ** The calls of a job, in the order of the code *)

(** The collaborator calls of the job of a [LocalAsset] that runs to its
    end. *)
Definition pipeline (env : Env) (dfile : DandiFile) : list call :=
  (if String.eqb (validation env) "skip" then []
   else [GetValidationErrors (filepath dfile)])
  ++ (if isinstance_ZarrAsset dfile then [] else [GetDigest (filepath dfile)])
  ++ [GetAssetByPath (path dfile); GetMetadata (filepath dfile);
      IterUpload (filepath dfile)].

(** The block makes a prefix of the calls [l], and all of them when it
    falls through. *)
Definition runs {A} (l : list call) (m : Gen A) : Prop :=
  ∀ s, ∃ cs, calls (state_of (m s)) = calls s ++ cs ∧ cs `prefix_of` l ∧
             ∀ a, outcome_of (m s) = Normal a → cs = l.

(** A record of [iter_upload] has the given status. *)
Definition has_status (status : string) (r : list (string * pyval)) : bool :=
  match dict_get "status" r with
  | Some v => pyval_is_str v status
  | None => false
  end.

(** The last ["current"] among the records with status ["uploading"]. *)
Fixpoint last_current (rs : list (list (string * pyval))) (acc : option pyval)
    : option pyval :=
  match rs with
  | [] => acc
  | r :: rs' =>
      if has_status "uploading" (dict_del "asset" r) then
        match dict_get "current" (dict_del "asset" r) with
        | Some current => last_current rs' (Some current)
        | None => last_current rs' acc
        end
      else last_current rs' acc
  end.

(** ** [bids_utils.evaluate_validation] *)

(** An entry of [validation_result["schema_tracking"]], with its keys
    ["regex"] and ["mandatory"]. *)
Record Pattern : Set := { regex : string; mandatory : bool }.

(** The dict [validation_result]; a key that is absent is [None]. *)
Record ValidationDict : Set := {
  schema_tracking : option (list Pattern);
  path_tracking : option (list string)
}.

Definition nonempty {A} (l : list A) : bool :=
  match l with [] => false | _ :: _ => true end.

(** The result is the returned flag with the lines written by
    [click.secho]; [pluralize] is [utils.pluralize], which is not among the
    sources. *)
Definition evaluate_validation (pluralize : nat -> string -> string)
    (validation_result : ValidationDict) (allow_errors cli_output : bool)
    : exn + (bool * list string) :=
  if allow_errors then inr (true, [])
  else
    match schema_tracking validation_result with
    | None => inl (Exn KeyError (py_repr "schema_tracking"))
    | Some patterns =>
        let missing_files := map regex (filter (fun p => mandatory p = true) patterns) in
        let error_list :=
          if nonempty missing_files then
            [pluralize (length missing_files) "filename pattern"
             +:+ " required by BIDS could not be found"]
          else [] in
        match path_tracking validation_result with
        | None => inl (Exn KeyError (py_repr "path_tracking"))
        | Some paths =>
            let error_list :=
              if nonempty paths then
                error_list ++ [pluralize (length paths) "filename"
                               +:+ " did not match any pattern known to BIDS"]
              else error_list in
            if nonempty error_list then
              inr (false,
                   if cli_output then
                     ["Summary: " +:+ String.concat " and " error_list +:+ "."]
                   else [])
            else inr (true, [])
        end
    end.

(** * Properties of [check_replace_asset] *)

Section Decision.
Variables (local_asset : DandiFile) (remote_asset : RemoteAsset).
Variable local_etag : Digest.
Hypothesis not_zarr : isinstance_ZarrAsset local_asset = false.

Let remote_etag := remote_etag_of remote_asset local_etag.
Let remote_mtime := blobDateModified (get_raw_metadata remote_asset).
Let local_mtime := modified local_asset.
Let status := remote_file_status remote_etag (value local_etag) remote_mtime local_mtime.

Lemma etag_eq_true : etag_eq remote_etag (value local_etag) = true <->
  remote_etag = Some (value local_etag).
Proof.
  unfold etag_eq. destruct remote_etag as [r|]; [|split; discriminate].
  rewrite String.eqb_eq. split; congruence.
Qed.

Lemma etag_eq_false : etag_eq remote_etag (value local_etag) = false <->
  remote_etag <> Some (value local_etag).
Proof.
  rewrite <- etag_eq_true. destruct (etag_eq _ _); split; congruence.
Qed.

Lemma check_replace_asset_unfold existing :
  check_replace_asset local_asset remote_asset existing (Some local_etag) =
  if String.eqb existing "error" then inl (Exn FileExistsError (exists_msg_of status))
  else if String.eqb existing "skip" then inr (false, skip_file (exists_msg_of status))
  else
    let reupload :=
      inr (true, [("message", VStr (exists_msg_of status +:+ " - reuploading"))]) in
    if String.eqb existing "overwrite" then
      if etag_eq remote_etag (value local_etag)
      then inr (false, skip_file (exists_msg_of status)) else reupload
    else if String.eqb existing "refresh" then
      if etag_eq remote_etag (value local_etag) then inr (false, skip_file "file exists")
      else match remote_mtime with
           | Some rm => if (rm >=? local_mtime)%Z
                        then inr (false, skip_file (exists_msg_of status)) else reupload
           | None => reupload
           end
    else if String.eqb existing "force" then reupload
    else inl (Exn ValueError ("invalid value for 'existing': " +:+ py_repr existing)).
Proof. unfold check_replace_asset. rewrite not_zarr. reflexivity. Qed.

(** C1.  Policy [refresh], non-chunked asset, remote record present:
    equal digests give Skip with reason "file exists"; otherwise a remote
    mtime that is present and not older than the local one gives Skip
    with the freshness label, "exists (newer)" or "exists (diff)";
    otherwise Replace, with "exists (older) - reuploading" or
    "exists (no mtime) - reuploading". *)
Theorem refresh_decision :
  (remote_etag = Some (value local_etag) ->
     check_replace_asset local_asset remote_asset "refresh" (Some local_etag)
     = inr (false, [("status", VStr "skipped"); ("message", VStr "file exists")])) /\
  (remote_etag <> Some (value local_etag) ->
     forall rm, remote_mtime = Some rm ->
       ((rm > local_mtime)%Z ->
        check_replace_asset local_asset remote_asset "refresh" (Some local_etag)
        = inr (false, [("status", VStr "skipped"); ("message", VStr "exists (newer)")])) /\
       (rm = local_mtime ->
        check_replace_asset local_asset remote_asset "refresh" (Some local_etag)
        = inr (false, [("status", VStr "skipped"); ("message", VStr "exists (diff)")])) /\
       ((rm < local_mtime)%Z ->
        check_replace_asset local_asset remote_asset "refresh" (Some local_etag)
        = inr (true, [("message", VStr "exists (older) - reuploading")]))) /\
  (remote_etag <> Some (value local_etag) -> remote_mtime = None ->
     check_replace_asset local_asset remote_asset "refresh" (Some local_etag)
     = inr (true, [("message", VStr "exists (no mtime) - reuploading")])).
Proof.
  rewrite check_replace_asset_unfold. cbn [String.eqb Ascii.eqb Bool.eqb].
  subst status. unfold remote_file_status.
  split; [|split].
  - intros H%etag_eq_true. now rewrite H.
  - intros H%etag_eq_false rm Hrm. rewrite H, Hrm. cbn [andb].
    split; [|split]; intros Hcmp.
    + destruct (Z.gtb_spec rm local_mtime); [|lia].
      destruct (Z.geb_spec rm local_mtime); [reflexivity | lia].
    + destruct (Z.gtb_spec rm local_mtime); [lia|].
      destruct (Z.ltb_spec rm local_mtime); [lia|].
      destruct (Z.geb_spec rm local_mtime); [reflexivity | lia].
    + destruct (Z.gtb_spec rm local_mtime); [lia|].
      destruct (Z.ltb_spec rm local_mtime); [|lia].
      destruct (Z.geb_spec rm local_mtime); [lia | reflexivity].
  - intros H%etag_eq_false Hrm. now rewrite H, Hrm.
Qed.

(** C2 (amended).  Policy [overwrite], non-chunked asset, remote record
    present: equal digests give Skip, and the reason is the message
    "exists (<freshness label>)"; different digests give Replace. *)
Theorem overwrite_decision :
  (remote_etag = Some (value local_etag) ->
     check_replace_asset local_asset remote_asset "overwrite" (Some local_etag)
     = inr (false, skip_file (exists_msg_of status))) /\
  (remote_etag <> Some (value local_etag) ->
     check_replace_asset local_asset remote_asset "overwrite" (Some local_etag)
     = inr (true, [("message", VStr (exists_msg_of status +:+ " - reuploading"))])).
Proof.
  rewrite check_replace_asset_unfold. cbn [String.eqb Ascii.eqb Bool.eqb].
  split.
  - intros H%etag_eq_true. now rewrite H.
  - intros H%etag_eq_false. now rewrite H.
Qed.

(** The flag [replace] of a result, when there is one. *)
Lemma refresh_flag :
  fst <$> (match check_replace_asset local_asset remote_asset "refresh" (Some local_etag)
           with inr r => Some r | inl _ => None end)
  = Some (negb (etag_eq remote_etag (value local_etag)
                || match remote_mtime with
                   | Some rm => (rm >=? local_mtime)%Z
                   | None => false
                   end)).
Proof.
  rewrite check_replace_asset_unfold. cbn [String.eqb Ascii.eqb Bool.eqb].
  destruct (etag_eq _ _); [reflexivity|].
  destruct remote_mtime as [rm|]; [|reflexivity].
  now destruct (rm >=? local_mtime)%Z.
Qed.

(** C9 (amended).  The freshness label of a non-chunked asset with a
    remote record: "same" iff the digests are equal and the mtimes are
    equal; "newer" iff the remote mtime is greater; "older" iff it is
    smaller; "diff" iff the digests differ and the mtimes are equal;
    "no mtime" when the remote mtime is absent.  Under [refresh] the
    decision to replace is a function of the digest equality and of the
    comparison remote mtime >= local mtime alone, never of the label. *)
Theorem freshness_relation :
  (forall rm, remote_mtime = Some rm ->
     (status = "same" <-> remote_etag = Some (value local_etag) /\ rm = local_mtime) /\
     (status = "newer" <-> (rm > local_mtime)%Z) /\
     (status = "older" <-> (rm < local_mtime)%Z) /\
     (status = "diff" <-> remote_etag <> Some (value local_etag) /\ rm = local_mtime)) /\
  (remote_mtime = None -> status = "no mtime") /\
  fst <$> (match check_replace_asset local_asset remote_asset "refresh" (Some local_etag)
           with inr r => Some r | inl _ => None end)
  = Some (negb (etag_eq remote_etag (value local_etag)
                || match remote_mtime with
                   | Some rm => (rm >=? local_mtime)%Z
                   | None => false
                   end)).
Proof.
  split; [|split; [|exact refresh_flag]].
  - intros rm Hrm. subst status. rewrite Hrm. unfold remote_file_status.
    rewrite <- etag_eq_false, <- etag_eq_true.
    destruct (etag_eq remote_etag (value local_etag));
      destruct (Z.eqb_spec rm local_mtime); cbn [andb];
      destruct (Z.gtb_spec rm local_mtime); destruct (Z.ltb_spec rm local_mtime);
      repeat split; intros; try discriminate; try lia; try tauto; try congruence;
      intuition (try discriminate; try lia).
  - intros Hrm. subst status. now rewrite Hrm.
Qed.

(** A remote record that carries the local digest is decided Skip under
    [skip], [overwrite] and [refresh]; under [force] it is replaced and
    under [error] the engine raises. *)
Lemma same_digest_decision :
  remote_etag = Some (value local_etag) ->
  (forall existing, existing ∈ ["skip"; "overwrite"; "refresh"] ->
     exists reason,
       check_replace_asset local_asset remote_asset existing (Some local_etag)
       = inr (false, skip_file reason)) /\
  check_replace_asset local_asset remote_asset "force" (Some local_etag)
    = inr (true, [("message", VStr (exists_msg_of status +:+ " - reuploading"))]) /\
  check_replace_asset local_asset remote_asset "error" (Some local_etag)
    = inl (Exn FileExistsError (exists_msg_of status)).
Proof.
  intros H%etag_eq_true. repeat split.
  - intros existing Hin. rewrite check_replace_asset_unfold.
    repeat (apply elem_of_cons in Hin as [-> | Hin]);
      [| | |now apply elem_of_nil in Hin];
      cbn [String.eqb Ascii.eqb Bool.eqb]; rewrite ?H; eauto.
  - now rewrite check_replace_asset_unfold.
  - now rewrite check_replace_asset_unfold.
Qed.

(** The engine rejects a policy exactly when it is none of the five. *)
Lemma check_replace_asset_ValueError existing :
  (exists e, check_replace_asset local_asset remote_asset existing (Some local_etag) = inl e
             /\ exc_class e = ValueError)
  <-> ~ valid_existing existing.
Proof.
  rewrite check_replace_asset_unfold. unfold valid_existing.
  repeat setoid_rewrite elem_of_cons. setoid_rewrite elem_of_nil.
  destruct (String.eqb_spec existing "error") as [->|?].
  { split; [intros (e & [= <-] & [=]) | intros []; auto]. }
  destruct (String.eqb_spec existing "skip") as [->|?].
  { split; [intros (e & [=] & _) | intros []; auto]. }
  cbn zeta.
  destruct (String.eqb_spec existing "overwrite") as [->|?].
  { split; [|intros []; auto].
    destruct (etag_eq _ _); intros (e & [=] & _). }
  destruct (String.eqb_spec existing "refresh") as [->|?].
  { split; [|intros []; auto 6].
    destruct (etag_eq _ _); [intros (e & [=] & _)|].
    destruct remote_mtime as [rm|]; [destruct (rm >=? local_mtime)%Z|];
      intros (e & [=] & _). }
  destruct (String.eqb_spec existing "force") as [->|?].
  { split; [intros (e & [=] & _) | intros []; auto 7]. }
  split; [tauto | intros _; eauto].
Qed.
End Decision.

(** For a Zarr the result is fixed, whatever the policy, the remote record
    and the local digest. *)
Lemma check_replace_asset_zarr local_asset remote_asset existing local_etag :
  isinstance_ZarrAsset local_asset = true ->
  check_replace_asset local_asset remote_asset existing local_etag
  = inr (true, [("message", VStr "exists - reuploading")]).
Proof. intros H. unfold check_replace_asset. now rewrite H. Qed.

(** C7 (amended).  For a non-chunked asset and each of the policies [skip],
    [overwrite] and [refresh], a second run on the unchanged tree, against
    the remote record that the first run left (the one it found when it
    skipped the file, one with the local digest when it uploaded it),
    decides Skip.  Against a record with the local digest, [force] replaces
    again and [error] raises. *)
Theorem second_run_decision local_asset local_etag :
  isinstance_ZarrAsset local_asset = false ->
  (forall existing first second,
     existing ∈ ["skip"; "overwrite"; "refresh"] ->
     second_run_remote local_asset existing local_etag first second ->
     exists reason,
       check_replace_asset local_asset second existing (Some local_etag)
       = inr (false, [("status", VStr "skipped"); ("message", VStr reason)])) /\
  (forall second,
     remote_etag_of second local_etag = Some (value local_etag) ->
     (exists reason,
        check_replace_asset local_asset second "force" (Some local_etag)
        = inr (true, [("message", VStr (reason +:+ " - reuploading"))])) /\
     (exists reason,
        check_replace_asset local_asset second "error" (Some local_etag)
        = inl (Exn FileExistsError reason))).
Proof.
  intros HZ. split.
  - intros existing first second Hin Hsecond.
    assert (Hsame : remote_etag_of second local_etag = Some (value local_etag) ->
              exists reason,
                check_replace_asset local_asset second existing (Some local_etag)
                = inr (false, [("status", VStr "skipped"); ("message", VStr reason)])).
    { intros He.
      destruct (proj1 (same_digest_decision local_asset second local_etag HZ He)
                  existing Hin) as [reason Hr].
      exists reason. exact Hr. }
    destruct first as [remote_asset|]; [|now apply Hsame].
    cbn in Hsecond.
    destruct (check_replace_asset local_asset remote_asset existing (Some local_etag))
      as [e|[[] out]] eqn:Hfirst; [done | now apply Hsame |].
    subst second. rewrite Hfirst.
    rewrite check_replace_asset_unfold in Hfirst by exact HZ.
    repeat (apply elem_of_cons in Hin as [-> | Hin]);
      [| | |now apply elem_of_nil in Hin];
      cbn [String.eqb Ascii.eqb Bool.eqb] in Hfirst; cbn zeta in Hfirst;
      repeat match type of Hfirst with
             | context [if ?c then _ else _] => destruct c
             | context [match ?x with Some _ => _ | None => _ end] => destruct x
             end;
      simplify_eq; eauto.
  - intros second He.
    destruct (same_digest_decision local_asset second local_etag HZ He) as (_ & Hf & Herr).
    eauto.
Qed.

(** * The body of [process_path] acts uniformly on the shared state *)

Lemma set_size_set_size k v1 v2 (m : gmap string Uploaded) :
  set_size k v2 (set_size k v1 m) = set_size k v2 m.
Proof.
  unfold set_size at 1 3. unfold getitem_default at 1. unfold set_size.
  rewrite lookup_insert_eq. cbn. apply insert_insert_eq.
Qed.

Lemma apply_effect_nil k s :
  apply_effect k {| eff_invalid := false; eff_size := None; eff_calls := [] |} s = s.
Proof. destruct s. unfold apply_effect. cbn. now rewrite app_nil_r. Qed.

Lemma apply_effect_then k e1 e2 s :
  apply_effect k e2 (apply_effect k e1 s) = apply_effect k (Effect_then e1 e2) s.
Proof.
  destruct e1 as [i1 z1 c1], e2 as [i2 z2 c2]. unfold apply_effect, Effect_then. cbn.
  f_equal.
  - now destruct i1, i2.
  - destruct z2 as [v2|]; [|reflexivity]. destruct z1 as [v1|]; [|reflexivity].
    apply set_size_set_size.
  - now rewrite app_assoc.
Qed.

Lemma uniform_ret {A} k (a : A) : uniform k (mret a).
Proof.
  exists [], {| eff_invalid := false; eff_size := None; eff_calls := [] |}, (Normal a).
  intros s. now rewrite apply_effect_nil.
Qed.

Lemma uniform_yield k r : uniform k (yield r).
Proof.
  exists [r], {| eff_invalid := false; eff_size := None; eff_calls := [] |}, (Normal tt).
  intros s. now rewrite apply_effect_nil.
Qed.

Lemma uniform_raise {A} k e : uniform k (@raise A e).
Proof.
  exists [], {| eff_invalid := false; eff_size := None; eff_calls := [] |}, (Raised e).
  intros s. now rewrite apply_effect_nil.
Qed.

Lemma uniform_return {A} k : uniform k (@return_ A).
Proof.
  exists [], {| eff_invalid := false; eff_size := None; eff_calls := [] |}, Returned.
  intros s. now rewrite apply_effect_nil.
Qed.

Lemma uniform_lift_result {A} k (r : exn + A) : uniform k (lift_result r).
Proof. destruct r; [apply uniform_raise | apply uniform_ret]. Qed.

Lemma uniform_log_call k c : uniform k (log_call c).
Proof.
  exists [], {| eff_invalid := false; eff_size := None; eff_calls := [c] |}, (Normal tt).
  intros [? ? ? ? ?]. reflexivity.
Qed.

Lemma uniform_invalidate k : uniform k (set_validate_ok false).
Proof.
  exists [], {| eff_invalid := true; eff_size := None; eff_calls := [] |}, (Normal tt).
  intros [? ? ? ? ?]. unfold set_validate_ok, modify, apply_effect. cbn.
  now rewrite app_nil_r.
Qed.

Lemma uniform_set_size k v : uniform k (update_uploaded_paths (set_size k v)).
Proof.
  exists [], {| eff_invalid := false; eff_size := Some v; eff_calls := [] |}, (Normal tt).
  intros [? ? ? ? ?]. unfold update_uploaded_paths, modify, apply_effect. cbn.
  now rewrite app_nil_r.
Qed.

Lemma uniform_bind {A B} k (m : Gen A) (f : A -> Gen B) :
  uniform k m -> (forall a, uniform k (f a)) -> uniform k (m ≫= f).
Proof.
  intros (ys & eff & o & Hm) Hf. destruct o as [a| |e].
  - destruct (Hf a) as (ys' & eff' & o' & Hfa).
    exists (ys ++ ys'), (Effect_then eff eff'), o'. intros s.
    unfold mbind, Gen_bind. rewrite Hm, Hfa. now rewrite apply_effect_then.
  - exists ys, eff, Returned. intros s. unfold mbind, Gen_bind. now rewrite Hm.
  - exists ys, eff, (Raised e). intros s. unfold mbind, Gen_bind. now rewrite Hm.
Qed.

Ltac uniform_step :=
  first
    [ apply uniform_ret | apply uniform_yield | apply uniform_raise
    | apply uniform_return | apply uniform_log_call | apply uniform_invalidate
    | apply uniform_set_size | apply uniform_lift_result
    | apply uniform_bind; [|intros ?]
    | match goal with
      | |- uniform _ (if ?c then _ else _) => destruct c
      | |- uniform _ (match ?x with _ => _ end) => destruct x
      end ].

Lemma uniform_upload_records strpath rs validating :
  uniform strpath (upload_records strpath rs validating).
Proof.
  revert validating. induction rs as [|r rs IH]; intros validating; cbn [upload_records].
  - apply uniform_ret.
  - repeat first [apply IH | uniform_step].
Qed.

Lemma uniform_process_path_body env dfile :
  uniform (filepath dfile) (process_path_body env dfile).
Proof.
  unfold process_path_body.
  repeat first [apply uniform_upload_records | uniform_step].
Qed.

(** * What one job does to the shared state *)

Lemma process_path_shape env dfile :
  exists ys eff, forall s,
    filepath dfile ∈ process_paths s ->
    let r := process_path env dfile s in
    process_paths (state_of r) = process_paths s ∖ {[filepath dfile]} /\
    upload_err (state_of r)
      = match upload_err s with Some e => Some e | None => job_exc env dfile end /\
    calls (state_of r) = calls s ++ eff_calls eff /\
    validate_ok (state_of r) = (if eff_invalid eff then false else validate_ok s) /\
    uploaded_paths (state_of r)
      = (let m := match eff_size eff with
                  | Some v => set_size (filepath dfile) v (uploaded_paths s)
                  | None => uploaded_paths s
                  end in
         match job_exc env dfile with
         | Some e => if devel_debug env then m
                     else append_error (filepath dfile) (str_exc e) m
         | None => m
         end) /\
    yields_of r
      = ys ++ match job_exc env dfile with
              | Some e => if devel_debug env then [] else [error_file (str_exc e)]
              | None => []
              end /\
    match job_exc env dfile with
    | Some e => outcome_of r = if devel_debug env then Raised e else Normal tt
    | None => forall e, outcome_of r <> Raised e
    end.
Proof.
  destruct (uniform_process_path_body env dfile) as (ys & eff & o & Hbody).
  exists ys, eff. intros s Hin r. subst r.
  unfold job_exc. rewrite Hbody. unfold outcome_of at 1 2 3 4. cbn [snd].
  unfold process_path, try_finally, try_except. rewrite Hbody.
  unfold process_paths_remove.
  destruct o as [[]| |e].
  - cbn. rewrite bool_decide_eq_true_2 by exact Hin. cbn.
    rewrite app_nil_r. repeat split; try reflexivity; try discriminate.
    now destruct (upload_err s).
  - cbn. rewrite bool_decide_eq_true_2 by exact Hin. cbn.
    rewrite app_nil_r. repeat split; try reflexivity; try discriminate.
    now destruct (upload_err s).
  - unfold process_path_handler, gets, mbind, Gen_bind, set_upload_err, modify,
      update_uploaded_paths, modify, yield, raise, mret, Gen_ret.
    destruct s as [err vok up pp cs]. cbn in Hin |- *.
    destruct err as [e0|]; destruct (devel_debug env); cbn;
      rewrite bool_decide_eq_true_2 by exact Hin; cbn;
      rewrite ?app_nil_r; repeat split; reflexivity.
Qed.

Lemma set_size_lookup_ne k k' v (m : gmap string Uploaded) :
  k' <> k -> set_size k v m !! k' = m !! k'.
Proof. intros H. unfold set_size. now rewrite lookup_insert_ne. Qed.

Lemma append_error_lookup_ne k k' msg (m : gmap string Uploaded) :
  k' <> k -> append_error k msg m !! k' = m !! k'.
Proof. intros H. unfold append_error. now rewrite lookup_insert_ne. Qed.

(** A job leaves the entries of the other files alone. *)
Lemma process_path_other_entries env dfile s k' :
  filepath dfile ∈ process_paths s -> k' <> filepath dfile ->
  uploaded_paths (state_of (process_path env dfile s)) !! k' = uploaded_paths s !! k'.
Proof.
  intros Hin Hne.
  destruct (process_path_shape env dfile) as (ys & eff & H).
  destruct (H s Hin) as (_ & _ & _ & _ & -> & _).
  cbn zeta.
  assert (Hm : (match eff_size eff with
                | Some v => set_size (filepath dfile) v (uploaded_paths s)
                | None => uploaded_paths s
                end) !! k' = uploaded_paths s !! k').
  { destruct (eff_size eff); [now apply set_size_lookup_ne | reflexivity]. }
  destruct (job_exc env dfile); [destruct (devel_debug env)|]; try exact Hm.
  now rewrite append_error_lookup_ne.
Qed.

(** The entry a job leaves for its own file is a function of the entry it
    found. *)
Lemma process_path_own_entry env dfile s1 s2 :
  filepath dfile ∈ process_paths s1 -> filepath dfile ∈ process_paths s2 ->
  uploaded_paths s1 !! filepath dfile = uploaded_paths s2 !! filepath dfile ->
  uploaded_paths (state_of (process_path env dfile s1)) !! filepath dfile
  = uploaded_paths (state_of (process_path env dfile s2)) !! filepath dfile.
Proof.
  intros Hin1 Hin2 Heq.
  destruct (process_path_shape env dfile) as (ys & eff & H).
  destruct (H s1 Hin1) as (_ & _ & _ & _ & -> & _).
  destruct (H s2 Hin2) as (_ & _ & _ & _ & -> & _).
  cbn zeta.
  destruct (job_exc env dfile); [destruct (devel_debug env)|];
    destruct (eff_size eff);
    unfold append_error, set_size, getitem_default;
    rewrite ?lookup_insert_eq, ?Heq; reflexivity.
Qed.

Lemma first_error_snoc env done f :
  first_error env (done ++ [f])
  = match first_error env done with Some e => Some e | None => job_exc env f end.
Proof.
  unfold first_error. rewrite omap_app. cbn.
  destruct (omap (job_exc env) done); cbn; [now destruct (job_exc env f)|reflexivity].
Qed.

(** * The invariant of the concurrent loop *)

Lemma Inv_initial env dandi_files : Inv env dandi_files (initial_Sched dandi_files).
Proof.
  split; cbn; try done.
  - intros f Hf. now apply elem_of_nil in Hf.
  - exists 0%nat. reflexivity.
Qed.

Lemma Inv_NoDup env dandi_files σ :
  NoDup (filepath <$> dandi_files) -> Inv env dandi_files σ ->
  NoDup (filepath <$> ((finished σ).*1 ++ in_flight σ ++ pending σ)).
Proof. intros Hnd HI. now rewrite <- (inv_perm _ _ _ HI). Qed.

Lemma Inv_step env dandi_files σ σ' :
  NoDup (filepath <$> dandi_files) -> Inv env dandi_files σ -> step env σ σ' ->
  Inv env dandi_files σ'.
Proof.
  intros Hnd HI Hstep. pose proof (Inv_NoDup _ _ _ Hnd HI) as Hnd'.
  destruct HI as [Hperm Hpaths Herr Hdone Htodo Hwait].
  destruct Hstep as [σ dfile rest Hpend Hsize | σ dfile rest Hpend Hsize | σ l1 dfile l2 Hfl].
  - (* the next file is handed over *)
    split; cbn.
    + rewrite Hperm, Hpend. rewrite <- !app_assoc. reflexivity.
    + rewrite Hpaths, fmap_app, list_to_set_app_L. cbn. set_solver.
    + exact Herr.
    + exact Hdone.
    + intros f Hf. apply Htodo. rewrite Hpend.
      rewrite <- app_assoc in Hf. exact Hf.
    + exact Hwait.
  - (* one sleep of the admission loop *)
    split; cbn; try assumption.
    destruct Hwait as [n Hn]. exists (S n). rewrite Hn. lia.
  - (* a generator is exhausted *)
    rewrite Hfl in Hnd', Hperm.
    assert (Hin : filepath dfile ∈ process_paths (shared σ)).
    { rewrite Hpaths, Hfl. set_solver. }
    assert (Hother : forall g, g ∈ (finished σ).*1 ++ l1 ++ l2 ++ pending σ ->
                               filepath g <> filepath dfile).
    { intros g Hg Heq.
      assert (Hp : (finished σ).*1 ++ (l1 ++ dfile :: l2) ++ pending σ
                   ≡ₚ dfile :: ((finished σ).*1 ++ l1 ++ l2 ++ pending σ)).
      { rewrite <- !app_assoc. cbn. now rewrite <- !Permutation_middle. }
      rewrite Hp in Hnd'. rewrite fmap_cons in Hnd'.
      apply NoDup_cons in Hnd' as [Hnot _]. apply Hnot.
      rewrite <- Heq. apply list_elem_of_fmap. eauto. }
    destruct (process_path_shape env dfile) as (ys & eff & Hshape).
    destruct (Hshape (shared σ) Hin) as (Hpp & Hue & _).
    split; cbn.
    + rewrite Hperm, fmap_app. cbn. rewrite <- !app_assoc. cbn.
      rewrite <- !Permutation_middle. reflexivity.
    + fold (state_of (process_path env dfile (shared σ))). rewrite Hpp, Hpaths, Hfl.
      rewrite !fmap_app, fmap_cons, !list_to_set_app_L, list_to_set_cons.
      assert (Hn1 : filepath dfile ∉ filepath <$> l1).
      { intros (g & Hg1 & Hg2)%list_elem_of_fmap. apply (Hother g); [|done].
        rewrite !elem_of_app. auto. }
      assert (Hn2 : filepath dfile ∉ filepath <$> l2).
      { intros (g & Hg1 & Hg2)%list_elem_of_fmap. apply (Hother g); [|done].
        rewrite !elem_of_app. auto. }
      set_solver.
    + fold (state_of (process_path env dfile (shared σ))).
      rewrite Hue, fmap_app, Herr. cbn. now rewrite first_error_snoc.
    + fold (state_of (process_path env dfile (shared σ))).
      intros f. rewrite fmap_app, elem_of_app. cbn. intros [Hf | Hf].
      * rewrite process_path_other_entries; [now apply Hdone|done|].
        apply Hother. rewrite elem_of_app. auto.
      * apply list_elem_of_singleton in Hf as ->. unfold outcome_alone.
        apply process_path_own_entry; [done|unfold started; cbn; set_solver|].
        rewrite Htodo by (rewrite Hfl; set_solver). reflexivity.
    + fold (state_of (process_path env dfile (shared σ))).
      intros f Hf. rewrite process_path_other_entries; [|done|].
      * apply Htodo. rewrite Hfl. set_solver.
      * apply Hother. rewrite <- app_assoc in Hf. rewrite elem_of_app. auto.
    + exact Hwait.
Qed.

Lemma Inv_steps env dandi_files σ :
  NoDup (filepath <$> dandi_files) -> steps env (initial_Sched dandi_files) σ ->
  Inv env dandi_files σ.
Proof.
  intros Hnd Hs. remember (initial_Sched dandi_files) as σ0 eqn:E.
  induction Hs as [σ|σ1 σ2 σ3 Hs IH Hst]; subst.
  - apply Inv_initial.
  - eapply Inv_step; eauto.
Qed.

(** * Bounded admission *)

Lemma in_flight_size env dandi_files σ :
  NoDup (filepath <$> dandi_files) -> Inv env dandi_files σ ->
  length (in_flight σ) = size (process_paths (shared σ)).
Proof.
  intros Hnd HI. pose proof (Inv_NoDup _ _ _ Hnd HI) as Hnd'.
  rewrite (inv_paths _ _ _ HI), size_list_to_set, length_fmap; [reflexivity|].
  rewrite !fmap_app in Hnd'.
  apply NoDup_app in Hnd' as (_ & _ & Hnd').
  now apply NoDup_app in Hnd' as (Hnd' & _).
Qed.



(** * The serial loop *)

Lemma process_path_started env dfile s :
  process_paths s = ∅ ->
  let r := process_path env dfile (process_paths_add dfile s) in
  process_paths (state_of r) = ∅ /\
  upload_err (state_of r)
    = match upload_err s with Some e => Some e | None => job_exc env dfile end /\
  match job_exc env dfile with
  | Some e => outcome_of r = if devel_debug env then Raised e else Normal tt
  | None => forall e, outcome_of r <> Raised e
  end.
Proof.
  intros Hempty r. subst r.
  destruct (process_path_shape env dfile) as (ys & eff & Hshape).
  assert (Hin : filepath dfile ∈ process_paths (process_paths_add dfile s)).
  { cbn. set_solver. }
  destruct (Hshape _ Hin) as (Hpp & Hue & _ & _ & _ & _ & Hout).
  split; [|split; assumption].
  rewrite Hpp. cbn. rewrite Hempty. set_solver.
Qed.




(** * The first error of a batch *)





(** * The calls a job makes *)

Section Calls.
Context {P : call -> Prop}.

Lemma calls_in_pure {A} (m : Gen A) :
  (forall s, calls (state_of (m s)) = calls s) -> calls_in P m.
Proof. intros H s. exists []. now rewrite H, app_nil_r. Qed.

Lemma calls_in_ret {A} (a : A) : calls_in P (mret a).
Proof. now apply calls_in_pure. Qed.

Lemma calls_in_yield r : calls_in P (yield r).
Proof. now apply calls_in_pure. Qed.

Lemma calls_in_raise {A} e : calls_in P (@raise A e).
Proof. now apply calls_in_pure. Qed.

Lemma calls_in_return {A} : calls_in P (@return_ A).
Proof. now apply calls_in_pure. Qed.

Lemma calls_in_lift_result {A} (r : exn + A) : calls_in P (lift_result r).
Proof. destruct r; [apply calls_in_raise | apply calls_in_ret]. Qed.

Lemma calls_in_gets {A} (f : State -> A) : calls_in P (gets f).
Proof. now apply calls_in_pure. Qed.

Lemma calls_in_set_upload_err e : calls_in P (set_upload_err e).
Proof. now apply calls_in_pure. Qed.

Lemma calls_in_set_validate_ok b : calls_in P (set_validate_ok b).
Proof. now apply calls_in_pure. Qed.

Lemma calls_in_update_uploaded_paths f : calls_in P (update_uploaded_paths f).
Proof. now apply calls_in_pure. Qed.

Lemma calls_in_process_paths_remove k : calls_in P (process_paths_remove k).
Proof.
  apply calls_in_pure. intros s. unfold process_paths_remove.
  now destruct (bool_decide _).
Qed.

Lemma calls_in_log_call c : P c -> calls_in P (log_call c).
Proof. intros Hc s. exists [c]. split; [reflexivity | now constructor]. Qed.

Lemma calls_in_bind {A B} (m : Gen A) (f : A -> Gen B) :
  calls_in P m -> (forall a, calls_in P (f a)) -> calls_in P (m ≫= f).
Proof.
  intros Hm Hf s. destruct (Hm s) as (cs & Hcs & HP).
  unfold mbind, Gen_bind. destruct (m s) as [[ys s'] [a| |e]]; cbn in Hcs.
  - destruct (Hf a s') as (cs' & Hcs' & HP').
    destruct (f a s') as [[ys' s''] o']. cbn in Hcs' |- *.
    exists (cs ++ cs'). rewrite Hcs', Hcs, app_assoc. split; [reflexivity|].
    now apply Forall_app.
  - exists cs. now split.
  - exists cs. now split.
Qed.

Lemma calls_in_try_except {A} (m : Gen A) (h : exn -> Gen A) :
  calls_in P m -> (forall e, calls_in P (h e)) -> calls_in P (try_except m h).
Proof.
  intros Hm Hh s. destruct (Hm s) as (cs & Hcs & HP).
  unfold try_except. destruct (m s) as [[ys s'] [a| |e]]; cbn in Hcs.
  - exists cs. now split.
  - exists cs. now split.
  - destruct (Hh e s') as (cs' & Hcs' & HP').
    destruct (h e s') as [[ys' s''] o']. cbn in Hcs' |- *.
    exists (cs ++ cs'). rewrite Hcs', Hcs, app_assoc. split; [reflexivity|].
    now apply Forall_app.
Qed.

Lemma calls_in_try_finally {A} (m : Gen A) (fin : Gen unit) :
  calls_in P m -> calls_in P fin -> calls_in P (try_finally m fin).
Proof.
  intros Hm Hfin s. destruct (Hm s) as (cs & Hcs & HP).
  unfold try_finally. destruct (m s) as [[ys s'] o]. cbn in Hcs.
  destruct (Hfin s') as (cs' & Hcs' & HP').
  destruct (fin s') as [[ys' s''] [[]| |e']]; cbn in Hcs' |- *;
    exists (cs ++ cs'); rewrite Hcs', Hcs, app_assoc;
    (split; [reflexivity | now apply Forall_app]).
Qed.
End Calls.

Ltac calls_in_step :=
  first
    [ apply calls_in_ret | apply calls_in_yield | apply calls_in_raise
    | apply calls_in_return | apply calls_in_lift_result | apply calls_in_gets
    | apply calls_in_set_upload_err | apply calls_in_set_validate_ok
    | apply calls_in_update_uploaded_paths | apply calls_in_process_paths_remove
    | apply calls_in_log_call; intros ?; discriminate
    | apply calls_in_bind; [|intros ?]
    | apply calls_in_try_except; [|intros ?]
    | apply calls_in_try_finally
    | match goal with
      | |- calls_in _ (if ?c then _ else _) => destruct c
      | |- calls_in _ (match ?x with _ => _ end) => destruct x
      end ].

Lemma calls_in_upload_records (P : call -> Prop) strpath rs validating :
  calls_in P (upload_records strpath rs validating).
Proof.
  revert validating. induction rs as [|r rs IH]; intros validating; cbn [upload_records].
  - apply calls_in_ret.
  - repeat first [apply IH | calls_in_step].
Qed.

Lemma zarr_no_GetDigest env dfile :
  isinstance_ZarrAsset dfile = true -> calls_in not_GetDigest (process_path env dfile).
Proof.
  intros HZ. unfold process_path, process_path_body, process_path_handler.
  rewrite HZ. unfold not_GetDigest.
  repeat first [apply calls_in_upload_records | calls_in_step].
Qed.

(** C3.  For a Zarr with a remote record the engine returns Replace with the
    message "exists - reuploading", whatever the policy, the remote record
    and the local digest are; and the job of a Zarr never asks for a
    digest. *)
Theorem zarr_always_replaced local_asset :
  isinstance_ZarrAsset local_asset = true ->
  (forall remote_asset existing local_etag,
     check_replace_asset local_asset remote_asset existing local_etag
     = inr (true, [("message", VStr "exists - reuploading")])) /\
  (forall env s, exists cs,
     calls (state_of (process_path env local_asset s)) = calls s ++ cs /\
     forall p, GetDigest p ∉ cs).
Proof.
  intros HZ. split.
  - intros. now apply check_replace_asset_zarr.
  - intros env s. destruct (zarr_no_GetDigest env local_asset HZ s) as (cs & Hcs & HP).
    exists cs. split; [exact Hcs|]. intros p Hp.
    rewrite Forall_forall in HP. exact (HP _ Hp p eq_refl).
Qed.

(** * The policy is consulted only by the comparison *)

Lemma process_path_existing_irrelevant env dfile policy :
  new_or_chunked env dfile ->
  process_path (with_existing policy env) dfile = process_path env dfile.
Proof.
  intros [HZ | (exc & Hlookup & Hnf)];
    unfold process_path, process_path_body, process_path_handler;
    cbn [with_existing existing validation allow_any_path upload_dandiset_metadata
         devel_debug jobs_per_file dandiset_metadata get_asset_by_path].
  - unfold check_replace_asset. rewrite HZ. reflexivity.
  - rewrite Hlookup, Hnf. reflexivity.
Qed.

Lemma upload_serial_existing_irrelevant env policy dandi_files :
  (forall f, f ∈ dandi_files -> new_or_chunked env f) ->
  forall s rows,
    upload_serial (with_existing policy env) dandi_files s rows
    = upload_serial env dandi_files s rows.
Proof.
  induction dandi_files as [|dfile rest IH]; intros Hall s rows; [reflexivity|].
  cbn [upload_serial].
  rewrite process_path_existing_irrelevant by (apply Hall; set_solver).
  assert (Hrec : rec_of (with_existing policy env) dfile = rec_of env dfile) by reflexivity.
  rewrite Hrec.
  destruct (max_in_flight <=? size (process_paths s))%nat; [reflexivity|].
  destruct (process_path env dfile (process_paths_add dfile s)) as [[ys s2] [[]| |exc]];
    rewrite ?IH by (intros; apply Hall; set_solver); reflexivity.
Qed.

Lemma steps_in_flight env dandi_files σ :
  steps env (initial_Sched dandi_files) σ ->
  forall f, f ∈ in_flight σ ++ pending σ -> f ∈ dandi_files.
Proof.
  intros Hs. remember (initial_Sched dandi_files) as σ0 eqn:E.
  induction Hs as [σ|σ1 σ2 σ3 Hs IH Hst]; subst; [intros f; cbn; done|].
  specialize (IH eq_refl).
  destruct Hst as [σ dfile rest Hpend Hsize | σ dfile rest Hpend Hsize | σ l1 dfile l2 Hfl];
    cbn; intros f Hf; apply IH.
  - rewrite Hpend. rewrite <- app_assoc in Hf. exact Hf.
  - exact Hf.
  - rewrite Hfl. set_solver.
Qed.

Lemma step_existing_irrelevant env1 env2 dandi_files σ σ' :
  (forall f, f ∈ dandi_files -> process_path env1 f = process_path env2 f) ->
  steps env1 (initial_Sched dandi_files) σ -> step env1 σ σ' -> step env2 σ σ'.
Proof.
  intros Hall Hs Hst.
  destruct Hst as [σ dfile rest Hpend Hsize | σ dfile rest Hpend Hsize | σ l1 dfile l2 Hfl].
  - apply step_dispatch; assumption.
  - eapply step_sleep; eassumption.
  - assert (Heq : exhausted env1 l1 dfile l2 σ = exhausted env2 l1 dfile l2 σ).
    { unfold exhausted. rewrite Hall; [reflexivity|].
      apply (steps_in_flight _ _ _ Hs). rewrite Hfl. set_solver. }
    rewrite Heq. now apply step_job.
Qed.

Lemma steps_existing_irrelevant env1 env2 dandi_files σ :
  (forall f, f ∈ dandi_files -> process_path env1 f = process_path env2 f) ->
  steps env1 (initial_Sched dandi_files) σ -> steps env2 (initial_Sched dandi_files) σ.
Proof.
  intros Hall Hs. remember (initial_Sched dandi_files) as σ0 eqn:E.
  induction Hs as [σ|σ1 σ2 σ3 Hs IH Hst]; subst; [constructor|].
  eapply steps_step; [now apply IH|].
  eapply step_existing_irrelevant; eauto.
Qed.

(** C10.  The engine raises [ValueError] exactly for a non-chunked asset
    (with its digest) under a policy that is none of the five; it is only
    reached for a file with a remote record.  A run whose files are all new
    or chunked is the same run for every policy string: the serial loop, the
    concurrent loop and the final phase never look at the policy. *)
Theorem invalid_policy_rejection :
  (forall local_asset remote_asset existing local_etag,
     (exists e, check_replace_asset local_asset remote_asset existing local_etag = inl e
                /\ exc_class e = ValueError)
     <-> isinstance_ZarrAsset local_asset = false /\ local_etag <> None
         /\ ~ valid_existing existing) /\
  (forall env policy dandi_files,
     (forall f, f ∈ dandi_files -> new_or_chunked env f) ->
     (forall f, f ∈ dandi_files ->
        process_path (with_existing policy env) f = process_path env f) /\
     (forall s rows,
        upload_serial (with_existing policy env) dandi_files s rows
        = upload_serial env dandi_files s rows) /\
     (forall σ, steps (with_existing policy env) (initial_Sched dandi_files) σ
                <-> steps env (initial_Sched dandi_files) σ) /\
     (forall s, upload_finish (with_existing policy env) s = upload_finish env s)).
Proof.
  split.
  - intros local_asset remote_asset existing local_etag.
    destruct (isinstance_ZarrAsset local_asset) eqn:HZ.
    { rewrite check_replace_asset_zarr by exact HZ.
      split; [intros (e & [=] & _) | intros ([=] & _)]. }
    destruct local_etag as [d|].
    + rewrite (check_replace_asset_ValueError local_asset remote_asset d HZ existing).
      split; [intros H; repeat split; [discriminate | exact H] | now intros (_ & _ & H)].
    + unfold check_replace_asset. rewrite HZ.
      split; [intros (e & [= <-] & [=]) | now intros (_ & H & _)].
  - intros env policy dandi_files Hall.
    assert (Hpp : forall f, f ∈ dandi_files ->
                    process_path (with_existing policy env) f = process_path env f).
    { intros f Hf. now apply process_path_existing_irrelevant, Hall. }
    repeat split.
    + exact Hpp.
    + now apply upload_serial_existing_irrelevant.
    + now apply steps_existing_irrelevant.
    + apply steps_existing_irrelevant. intros f Hf. symmetry. now apply Hpp.
Qed.

(** * Policy [error] *)

Ltac gen_eval :=
  lazy beta iota zeta delta
    [mbind Gen_bind yield log_call modify lift_result mret Gen_ret raise return_
     set_validate_ok negb andb
     upload_err validate_ok uploaded_paths process_paths calls log_calls].


(** What [process_path] makes of a body that raises. *)
Lemma process_path_raised env dfile s ys s1 e :
  process_path_body env dfile s = (ys, s1, Raised e) ->
  filepath dfile ∈ process_paths s1 ->
  process_path env dfile s
  = (ys ++ (if devel_debug env then [] else [error_file (str_exc e)]),
     {| upload_err := Some (match upload_err s1 with Some e0 => e0 | None => e end);
        validate_ok := validate_ok s1;
        uploaded_paths :=
          if devel_debug env then uploaded_paths s1
          else append_error (filepath dfile) (str_exc e) (uploaded_paths s1);
        process_paths := process_paths s1 ∖ {[filepath dfile]};
        calls := calls s1 |},
     if devel_debug env then Raised e else Normal tt).
Proof.
  intros Hbody Hin.
  unfold process_path, try_finally, try_except. rewrite Hbody.
  unfold process_path_handler, process_paths_remove, gets, mbind, Gen_bind,
    set_upload_err, update_uploaded_paths, modify, yield, raise, mret, Gen_ret.
  destruct s1 as [err vok up pp cs]. cbn in Hin |- *.
  destruct err as [e0|]; destruct (devel_debug env); cbn;
    rewrite bool_decide_eq_true_2 by exact Hin; cbn;
    rewrite ?app_nil_r; reflexivity.
Qed.


(** * Delete-sync *)

Lemma reduce_two_raises {A} (f : A -> A -> exn + A) e x y rest :
  (forall a b, f a b = inl e) -> reduce f (x :: y :: rest) = inl e.
Proof.
  intros Hf. unfold reduce. cbn. rewrite Hf.
  induction rest as [|z rest IH]; [reflexivity | exact IH].
Qed.

(** With a single input path the pass is the one that is documented: the
    prefix is that path, and the remote assets under it that fall under the
    path and have no local file are deleted, once the user has confirmed;
    an error of the batch is raised instead. *)
Lemma delete_sync_single_path env s rp :
  sync env = true -> paths_relative env = [rp] ->
  let p := if String.eqb rp "." then "" else rp in
  let to_delete :=
    filter (fun a => (String.eqb p "" || path_is_subpath env (asset_path a) p)
                     && negb (path_exists env (asset_path a)) = true)
           (get_assets_with_path_prefix env p) in
  upload_finish env s
  = match upload_err s with
    | Some e => inl e
    | None =>
        if confirm env then inr (log_calls (map (fun a => Delete (asset_path a)) to_delete) s)
        else inr s
    end.
Proof.
  intros Hsync Hpaths p to_delete. unfold upload_finish. rewrite Hsync.
  destruct (upload_err s); [reflexivity|].
  unfold delete_sync, relpaths_of. rewrite Hpaths. cbn [map reduce].
  fold p.
  assert (Heq : to_delete_of env [p] p = to_delete).
  { apply list_filter_iff. intros a. cbn [existsb]. now rewrite orb_false_r. }
  cbn [fold_left]. rewrite Heq. destruct to_delete as [|a l] eqn:Htd; [|reflexivity].
  destruct (confirm env); [|reflexivity].
  cbn. unfold log_calls. rewrite app_nil_r. now destruct s.
Qed.

(** With two input paths or more, [reduce] applies [os.path.commonprefix]
    to two arguments: the pass raises [TypeError] and deletes nothing. *)
Lemma delete_sync_many_paths env s rp1 rp2 rps :
  sync env = true -> upload_err s = None -> paths_relative env = rp1 :: rp2 :: rps ->
  upload_finish env s
  = inl (Exn TypeError "commonprefix() takes 1 positional argument but 2 were given").
Proof.
  intros Hsync Herr Hpaths. unfold upload_finish, delete_sync, relpaths_of.
  rewrite Herr, Hsync, Hpaths. cbn [map].
  now rewrite (reduce_two_raises _
    (Exn TypeError "commonprefix() takes 1 positional argument but 2 were given")).
Qed.

(** C8.  Delete-sync for the two input paths [sub-01] and [sub-02], after a
    batch without error, with a remote asset that has no local file: the
    pass raises [TypeError] where the common prefix is computed, and the
    asset is not deleted. *)
Theorem delete_sync_two_paths_raises :
  let env := Examples.env_sync "refresh" ["sub-01"; "sub-02"]
               [Examples.remote "sub-01/gone.nwb" (Some 1000) "d9"] in
  upload_err initial_State = None /\
  path_exists env "sub-01/gone.nwb" = false /\
  path_is_subpath env "sub-01/gone.nwb" "sub-01" = true /\
  upload_finish env initial_State
  = inl (Exn TypeError "commonprefix() takes 1 positional argument but 2 were given").
Proof. vm_compute. repeat split; reflexivity. Qed.

(** * The statements at concrete inputs *)

Import Examples.

Lemma refresh_decision_witness :
  isinstance_ZarrAsset nwb = false /\
  check_replace_asset nwb same "refresh" (Some (etag "d1"))
    = inr (false, [("status", VStr "skipped"); ("message", VStr "file exists")]) /\
  check_replace_asset nwb newer "refresh" (Some (etag "d1"))
    = inr (false, [("status", VStr "skipped"); ("message", VStr "exists (newer)")]) /\
  check_replace_asset nwb older "refresh" (Some (etag "d1"))
    = inr (true, [("message", VStr "exists (older) - reuploading")]).
Proof.
  split; [reflexivity|]. split; [|split].
  - apply (proj1 (refresh_decision nwb same (etag "d1") eq_refl)). reflexivity.
  - apply (proj1 (proj1 (proj2 (refresh_decision nwb newer (etag "d1") eq_refl))
                    ltac:(discriminate) 2000 eq_refl)).
    reflexivity.
  - apply (proj2 (proj2 (proj1 (proj2 (refresh_decision nwb older (etag "d1") eq_refl))
                           ltac:(discriminate) 500 eq_refl))).
    reflexivity.
Defined.

(** C2, as stated, fails: with equal digests the reason of the Skip is
    "exists (same)", not "exists — same content". *)
Lemma overwrite_reason_counterexample :
  remote_etag_of same (etag "d1") = Some (value (etag "d1")) /\
  check_replace_asset nwb same "overwrite" (Some (etag "d1"))
    = inr (false, skip_file "exists (same)") /\
  check_replace_asset nwb same "overwrite" (Some (etag "d1"))
    <> inr (false, skip_file "exists — same content") /\
  check_replace_asset nwb same "overwrite" (Some (etag "d1"))
    <> inr (false, skip_file "exists - same content").
Proof. vm_compute. repeat split; intros H; discriminate H. Qed.

Lemma overwrite_decision_witness :
  isinstance_ZarrAsset nwb = false /\
  check_replace_asset nwb same "overwrite" (Some (etag "d1"))
    = inr (false, skip_file "exists (same)") /\
  check_replace_asset nwb older "overwrite" (Some (etag "d1"))
    = inr (true, [("message", VStr "exists (older) - reuploading")]).
Proof.
  split; [reflexivity|]. split.
  - apply (proj1 (overwrite_decision nwb same (etag "d1") eq_refl)). reflexivity.
  - apply (proj2 (overwrite_decision nwb older (etag "d1") eq_refl)). discriminate.
Defined.

Lemma zarr_always_replaced_witness :
  isinstance_ZarrAsset zarr = true /\
  check_replace_asset zarr same "error" None
    = inr (true, [("message", VStr "exists - reuploading")]).
Proof.
  split; [reflexivity|].
  exact (proj1 (zarr_always_replaced zarr eq_refl) same "error" None).
Defined.



(** C7, as stated, fails: under [force] an unchanged asset whose remote
    record has the local digest is replaced again. *)
Lemma second_run_force_counterexample :
  remote_etag_of same (etag "d1") = Some (value (etag "d1")) /\
  blobDateModified (get_raw_metadata same) = Some (modified nwb) /\
  check_replace_asset nwb same "force" (Some (etag "d1"))
    = inr (true, [("message", VStr "exists (same) - reuploading")]) /\
  ~ (exists out, check_replace_asset nwb same "force" (Some (etag "d1")) = inr (false, out)).
Proof.
  vm_compute. repeat split. intros [out H]. discriminate H.
Qed.

Lemma second_run_decision_witness :
  isinstance_ZarrAsset nwb = false /\
  second_run_remote nwb "refresh" (etag "d1") (Some newer) newer /\
  second_run_remote nwb "refresh" (etag "d1") None same /\
  (exists reason,
     check_replace_asset nwb newer "refresh" (Some (etag "d1"))
     = inr (false, [("status", VStr "skipped"); ("message", VStr reason)])) /\
  (exists reason,
     check_replace_asset nwb same "refresh" (Some (etag "d1"))
     = inr (false, [("status", VStr "skipped"); ("message", VStr reason)])).
Proof.
  assert (H1 : second_run_remote nwb "refresh" (etag "d1") (Some newer) newer)
    by reflexivity.
  assert (H2 : second_run_remote nwb "refresh" (etag "d1") None same) by reflexivity.
  assert (Hin : "refresh" ∈ ["skip"; "overwrite"; "refresh"]) by repeat constructor.
  split; [reflexivity|]. split; [exact H1|]. split; [exact H2|]. split.
  - exact (proj1 (second_run_decision nwb (etag "d1") eq_refl) "refresh" (Some newer) newer
             Hin H1).
  - exact (proj1 (second_run_decision nwb (etag "d1") eq_refl) "refresh" None same Hin H2).
Defined.

(** C9, as stated, fails: digests that differ, mtimes that differ and a
    remote mtime below the local one give "older", not "diff". *)
Lemma freshness_diff_counterexample :
  remote_file_status (Some "d0") "d1" (Some 500) 1000 = "older" /\
  ~ (remote_file_status (Some "d0") "d1" (Some 500) 1000 = "diff"
     <-> Some "d0" <> Some "d1" /\ 500 <> 1000 /\ 500 <= 1000).
Proof.
  split; [reflexivity|]. intros [_ H].
  assert (Hd : remote_file_status (Some "d0") "d1" (Some 500) 1000 = "diff").
  { apply H. repeat split; [discriminate | lia | lia]. }
  vm_compute in Hd. discriminate Hd.
Qed.

Lemma freshness_relation_witness :
  isinstance_ZarrAsset nwb = false /\
  (remote_file_status (remote_etag_of older (etag "d1")) "d1" (Some 500) 1000 = "older"
   <-> 500 < 1000).
Proof.
  split; [reflexivity|].
  exact (proj1 (proj2 (proj2 (proj1 (freshness_relation nwb older (etag "d1") eq_refl)
                                 500 eq_refl)))).
Defined.

Lemma steps_sched_both : steps env_error (initial_Sched [nwb; nwb2]) sched_both.
Proof.
  eapply steps_step; [eapply steps_step; [apply steps_refl|]|].
  - apply (step_dispatch env_error (initial_Sched [nwb; nwb2]) nwb [nwb2]);
      [reflexivity | vm_compute; lia].
  - apply (step_dispatch env_error (dispatched nwb [nwb2] (initial_Sched [nwb; nwb2]))
             nwb2 []); [reflexivity | vm_compute; lia].
Defined.


Lemma steps_cons env σ1 σ2 σ3 : step env σ1 σ2 -> steps env σ2 σ3 -> steps env σ1 σ3.
Proof.
  intros Hst Hs. induction Hs as [σ|σ2 σ3 σ4 Hs IH Hst'].
  - eapply steps_step; [apply steps_refl | exact Hst].
  - eapply steps_step; [now apply IH | exact Hst'].
Qed.








(** * Further properties of [check_replace_asset] *)

(** X1.  The policies are ordered by what they upload: [skip] never
    replaces; whatever [refresh] replaces, [overwrite] replaces too, with
    the same message; whatever any policy replaces, [force] replaces with
    the same message. *)
Theorem policy_order local_asset remote_asset local_etag :
  isinstance_ZarrAsset local_asset = false ->
  (forall out, check_replace_asset local_asset remote_asset "skip" (Some local_etag)
               <> inr (true, out)) /\
  (forall out, check_replace_asset local_asset remote_asset "refresh" (Some local_etag)
               = inr (true, out) ->
               check_replace_asset local_asset remote_asset "overwrite" (Some local_etag)
               = inr (true, out)) /\
  (forall existing out,
     check_replace_asset local_asset remote_asset existing (Some local_etag)
     = inr (true, out) ->
     check_replace_asset local_asset remote_asset "force" (Some local_etag)
     = inr (true, out)).
Proof.
  intros HZ. split; [|split].
  - intros out. rewrite check_replace_asset_unfold by exact HZ. discriminate.
  - intros out. rewrite !check_replace_asset_unfold by exact HZ.
    cbn [String.eqb Ascii.eqb Bool.eqb].
    destruct (etag_eq _ _); [discriminate|].
    destruct (blobDateModified _) as [rm|]; [destruct (rm >=? _)%Z|]; done.
  - intros existing out. rewrite !check_replace_asset_unfold by exact HZ.
    cbn [String.eqb Ascii.eqb Bool.eqb].
    destruct (String.eqb existing "error"); [discriminate|].
    destruct (String.eqb existing "skip"); [discriminate|].
    cbn zeta.
    destruct (String.eqb existing "overwrite").
    { destruct (etag_eq _ _); [discriminate | done]. }
    destruct (String.eqb existing "refresh").
    { destruct (etag_eq _ _); [discriminate|].
      destruct (blobDateModified _) as [rm|]; [destruct (rm >=? _)%Z|];
        done || discriminate. }
    destruct (String.eqb existing "force"); [done | discriminate].
Qed.

Lemma policy_order_witness :
  check_replace_asset nwb older "force" (Some (etag "d1"))
  = inr (true, [("message", VStr "exists (older) - reuploading")]).
Proof.
  apply (proj2 (proj2 (policy_order nwb older (etag "d1") eq_refl)) "refresh").
  reflexivity.
Defined.

(** X2.  The record that the engine hands back always has a message; it
    has the status "skipped" exactly when the asset is not replaced, and no
    status at all when it is. *)
Theorem check_replace_asset_record local_asset remote_asset existing local_etag
    replace out :
  check_replace_asset local_asset remote_asset existing local_etag = inr (replace, out) ->
  (exists msg, dict_get "message" out = Some (VStr msg)) /\
  dict_get "status" out = (if replace then None else Some (VStr "skipped")).
Proof.
  unfold check_replace_asset.
  destruct (isinstance_ZarrAsset local_asset).
  { intros [= <- <-]. cbn. eauto. }
  destruct local_etag as [d|]; [|discriminate].
  cbn zeta.
  repeat match goal with
         | |- context [if ?c then _ else _] => destruct c
         | |- context [match ?x with Some _ => _ | None => _ end] => destruct x
         end;
    intros H; simplify_eq; cbn; eauto.
Qed.

Lemma check_replace_asset_record_witness :
  dict_get "status" (skip_file "file exists") = Some (VStr "skipped").
Proof.
  exact (proj2 (check_replace_asset_record nwb same "refresh" (Some (etag "d1")) false
                  (skip_file "file exists") eq_refl)).
Defined.

(** * [files_to_consider] *)




(** * [evaluate_validation] *)

Section EvaluateValidation.
Variable pluralize : nat -> string -> string.

Lemma nonempty_true {A} (l : list A) : nonempty l = true <-> l <> [].
Proof. destruct l; cbn; split; congruence. Qed.


(** X5.  A summary is written exactly when the validation fails and
    [cli_output] is set, and it is a single line. *)
Theorem evaluate_validation_output validation_result allow_errors cli_output passed out :
  evaluate_validation pluralize validation_result allow_errors cli_output
    = inr (passed, out) ->
  (out <> [] <-> passed = false /\ cli_output = true) /\ (length out <= 1)%nat.
Proof.
  unfold evaluate_validation. destruct allow_errors.
  { intros [= <- <-]. split; [split; [done | now intros [[=] _]] | cbn; lia]. }
  destruct (schema_tracking validation_result) as [patterns|]; [|discriminate].
  destruct (path_tracking validation_result) as [paths|]; [|discriminate].
  cbn zeta. destruct (nonempty (if nonempty paths then _ else _)).
  - destruct cli_output; intros [= <- <-]; cbn;
      (split; [split; [auto | intros [_ ?]; done] | lia]).
  - intros [= <- <-]. split; [split; [done | now intros [[=] _]] | cbn; lia].
Qed.

(** X6.  Patterns that are not mandatory have no influence: the answer is
    the one for the mandatory patterns alone. *)
Theorem evaluate_validation_mandatory_only patterns paths allow_errors cli_output :
  evaluate_validation pluralize
    {| schema_tracking := Some patterns; path_tracking := paths |} allow_errors cli_output
  = evaluate_validation pluralize
      {| schema_tracking := Some (filter (fun p => mandatory p = true) patterns);
         path_tracking := paths |} allow_errors cli_output.
Proof.
  unfold evaluate_validation. cbn [schema_tracking path_tracking].
  assert (Hidem : filter (fun p => mandatory p = true)
                    (filter (fun p => mandatory p = true) patterns)
                  = filter (fun p => mandatory p = true) patterns).
  { induction patterns as [|p l IH]; [reflexivity|].
    rewrite filter_cons. destruct (decide _) as [Hp|Hp]; [|exact IH].
    rewrite filter_cons. destruct (decide _); [|contradiction]. now rewrite IH. }
  now rewrite Hidem.
Qed.
End EvaluateValidation.

Lemma evaluate_validation_output_witness :
  (["Summary: 1 filename did not match any pattern known to BIDS."] <> []
   <-> false = false /\ true = true) /\ (1 <= 1)%nat.
Proof.
  exact (evaluate_validation_output (fun _ w => "1 " +:+ w)
           {| schema_tracking := Some []; path_tracking := Some ["x.txt"] |}
           false true false
           ["Summary: 1 filename did not match any pattern known to BIDS."] eq_refl).
Defined.

(** * The loop over the records of [iter_upload] *)

Lemma dict_get_del k d : dict_get k (dict_del k d) = None.
Proof.
  induction d as [|[k' v] d IH]; [reflexivity|].
  cbn. destruct (String.eqb k k') eqn:E; [exact IH|]. cbn. now rewrite E.
Qed.

Lemma dict_get_del_None k k' d : dict_get k d = None -> dict_get k (dict_del k' d) = None.
Proof.
  induction d as [|[k0 v] d IH]; [reflexivity|].
  cbn. destruct (String.eqb k k0) eqn:E; [discriminate|]. intros H.
  destruct (String.eqb k' k0); [now apply IH|]. cbn. rewrite E. now apply IH.
Qed.

Lemma dict_get_del_ne k k' d : k <> k' -> dict_get k (dict_del k' d) = dict_get k d.
Proof.
  intros Hne. induction d as [|[k0 v] d IH]; [reflexivity|].
  cbn. destruct (String.eqb_spec k' k0) as [<-|Hk'].
  - rewrite IH. destruct (String.eqb_spec k k'); [contradiction | reflexivity].
  - cbn. now rewrite IH.
Qed.

Lemma yields_bind {A B} (m : Gen A) (k : A -> Gen B) s :
  yields_of ((m ≫= k) s)
  = yields_of (m s) ++ match outcome_of (m s) with
                       | Normal a => yields_of (k a (state_of (m s)))
                       | _ => []
                       end.
Proof.
  unfold mbind, Gen_bind, yields_of, outcome_of, state_of.
  destruct (m s) as [[ys s'] [a| |e]]; cbn; rewrite ?app_nil_r; [|reflexivity..].
  now destruct (k a s') as [[ys' s''] o].
Qed.

(** X7.  Of the "post-validating" records of the transfer only the first is
    passed on. *)
Theorem upload_records_post_validating strpath rs validating s :
  (length (filter (fun y => has_status "post-validating" y = true)
             (yields_of (upload_records strpath rs validating s)))
   <= if validating then 0 else 1)%nat.
Proof.
  revert validating s. induction rs as [|r rs IH]; intros validating s.
  - cbn. destruct validating; lia.
  - cbn [upload_records].
    destruct (dict_get "status" (dict_del "asset" r)) as [status|] eqn:Hst;
      [|cbn; destruct validating; lia].
    destruct (pyval_is_str status "uploading") eqn:Hup.
    { destruct (dict_get "current" (dict_del "asset" r)) as [current|] eqn:Hcur;
        [|cbn; destruct validating; lia].
      rewrite !yields_bind. cbn [update_uploaded_paths modify yield yields_of outcome_of
                                 state_of fst snd app].
      rewrite filter_cons. destruct (decide _) as [Hpv|_]; [|apply IH].
      exfalso. revert Hpv. unfold has_status.
      destruct (dict_get "status" (dict_del "current" (dict_del "asset" r)))
        as [st'|] eqn:Hst'; [|discriminate].
      assert (st' = status) as ->.
      { rewrite dict_get_del_ne in Hst' by discriminate. congruence. }
      destruct status as [v| |]; try discriminate. cbn in Hup |- *.
      apply String.eqb_eq in Hup as ->. discriminate. }
    destruct (pyval_is_str status "post-validating") eqn:Hpv.
    + destruct validating; [apply IH|].
      rewrite yields_bind. cbn [yield yields_of outcome_of state_of fst snd app].
      rewrite filter_cons. specialize (IH true s). cbn in IH.
      destruct (decide _); cbn; lia.
    + rewrite yields_bind. cbn [yield yields_of outcome_of state_of fst snd app].
      rewrite filter_cons. destruct (decide _) as [Hy|_]; [|apply IH].
      exfalso. revert Hy. unfold has_status. now rewrite Hst, Hpv.
Qed.

(** X8.  No record that is passed on carries the key "asset", and no
    "uploading" record carries the key "current". *)
Theorem upload_records_keys strpath rs validating s :
  Forall (fun y => dict_get "asset" y = None /\
                   (has_status "uploading" y = true -> dict_get "current" y = None))
         (yields_of (upload_records strpath rs validating s)).
Proof.
  revert validating s. induction rs as [|r rs IH]; intros validating s.
  - constructor.
  - cbn [upload_records].
    destruct (dict_get "status" (dict_del "asset" r)) as [status|] eqn:Hst; [|constructor].
    destruct (pyval_is_str status "uploading") eqn:Hup.
    { destruct (dict_get "current" (dict_del "asset" r)) as [current|]; [|constructor].
      rewrite !yields_bind. cbn [update_uploaded_paths modify yield yields_of outcome_of
                                 state_of fst snd app].
      constructor; [|apply IH]. split; [|intros _; apply dict_get_del].
      apply dict_get_del_None, dict_get_del. }
    assert (Hr : dict_get "asset" (dict_del "asset" r) = None /\
                 (has_status "uploading" (dict_del "asset" r) = true ->
                  dict_get "current" (dict_del "asset" r) = None)).
    { split; [apply dict_get_del|]. unfold has_status. rewrite Hst, Hup. discriminate. }
    destruct (pyval_is_str status "post-validating").
    + destruct validating; [apply IH|].
      rewrite yields_bind. cbn [yield yields_of outcome_of state_of fst snd app].
      constructor; [exact Hr | apply IH].
    + rewrite yields_bind. cbn [yield yields_of outcome_of state_of fst snd app].
      constructor; [exact Hr | apply IH].
Qed.

Lemma last_current_acc rs acc :
  last_current rs acc
  = match last_current rs None with Some c => Some c | None => acc end.
Proof.
  revert acc. induction rs as [|r rs IH]; intros acc; [reflexivity|].
  cbn. destruct (has_status "uploading" (dict_del "asset" r)); [|apply IH].
  destruct (dict_get "current" (dict_del "asset" r)) as [c|]; [|apply IH].
  rewrite (IH (Some c)). now destruct (last_current rs None).
Qed.

(** X9.  When the loop over the transfer's records runs to its end, the
    size recorded for the file is the last "current" that an "uploading"
    record reported (the entry is untouched when there was none); the error
    list of the entry and the rest of the shared state are as before. *)
Theorem upload_records_size strpath rs validating s :
  outcome_of (upload_records strpath rs validating s) = Normal tt ->
  let s' := state_of (upload_records strpath rs validating s) in
  uploaded_paths s'
    = match last_current rs None with
      | Some current => set_size strpath current (uploaded_paths s)
      | None => uploaded_paths s
      end /\
  upload_err s' = upload_err s /\ validate_ok s' = validate_ok s /\
  process_paths s' = process_paths s /\ calls s' = calls s.
Proof.
  revert validating s. induction rs as [|r rs IH]; intros validating s.
  - intros _. cbn. auto.
  - cbn [upload_records last_current]. unfold has_status.
    destruct (dict_get "status" (dict_del "asset" r)) as [status|]; [|discriminate].
    destruct (pyval_is_str status "uploading").
    { destruct (dict_get "current" (dict_del "asset" r)) as [current|]; [|discriminate].
      unfold mbind, Gen_bind, update_uploaded_paths, modify, yield. cbn [app].
      specialize (IH validating
        {| upload_err := upload_err s; validate_ok := validate_ok s;
           uploaded_paths := set_size strpath current (uploaded_paths s);
           process_paths := process_paths s; calls := calls s |}).
      destruct (upload_records strpath rs validating _) as [[ys' s''] o'].
      unfold outcome_of, state_of in *. cbn in *. intros Ho.
      destruct (IH Ho) as (Hup & ? & ? & ? & ?). repeat split; try assumption.
      rewrite Hup, (last_current_acc rs (Some current)).
      destruct (last_current rs None); [apply set_size_set_size | reflexivity]. }
    destruct (pyval_is_str status "post-validating"); [destruct validating|];
      try apply IH;
      unfold mbind, Gen_bind, yield;
      match goal with
      | |- context [upload_records strpath rs ?v s] =>
          specialize (IH v s); destruct (upload_records strpath rs v s) as [[ys' s''] o']
      end;
      unfold outcome_of, state_of in *; cbn in *; exact IH.
Qed.

Lemma upload_records_size_witness :
  uploaded_paths (state_of (upload_records "/ds/a" (fst Examples.transfer) false initial_State))
  = set_size "/ds/a" (VInt 100) ∅.
Proof.
  exact (proj1 (upload_records_size "/ds/a" (fst Examples.transfer) false initial_State
                  eq_refl)).
Defined.

(** * Invariants of a job on the shared state *)

(** X10.  A job never resets what earlier jobs recorded: an error that is
    already noted stays the noted one, and a failed validation stays
    failed, whatever the file and the state are. *)
Theorem shared_flags_sticky env dfile s :
  (forall e, upload_err s = Some e ->
             upload_err (state_of (process_path env dfile s)) = Some e) /\
  (validate_ok s = false -> validate_ok (state_of (process_path env dfile s)) = false).
Proof.
  destruct (uniform_process_path_body env dfile) as (ys & eff & o & Hbody).
  unfold process_path, try_finally, try_except. rewrite Hbody.
  unfold process_paths_remove, process_path_handler, gets, mbind, Gen_bind,
    set_upload_err, update_uploaded_paths, modify, yield, raise, mret, Gen_ret.
  destruct s as [err vok up pp cs]. cbn.
  split.
  - intros e ->.
    destruct o as [[]| |e']; [| |destruct (devel_debug env)]; cbn;
      destruct (bool_decide _); reflexivity.
  - intros ->.
    destruct o as [[]| |e']; [| |destruct err; destruct (devel_debug env)]; cbn;
      destruct (bool_decide _); cbn; now destruct (eff_invalid eff).
Qed.

Lemma shared_flags_sticky_witness :
  upload_err (state_of (process_path env_error nwb
     {| upload_err := Some (Exn OtherError "first"); validate_ok := true;
        uploaded_paths := ∅; process_paths := ∅; calls := [] |}))
  = Some (Exn OtherError "first").
Proof.
  exact (proj1 (shared_flags_sticky env_error nwb
                  {| upload_err := Some (Exn OtherError "first"); validate_ok := true;
                     uploaded_paths := ∅; process_paths := ∅; calls := [] |})
               (Exn OtherError "first") eq_refl).
Defined.

(** X11.  A job whose path is in [process_paths] takes it out again,
    however it ends; in the default mode no exception leaves the job, and
    in debug mode exactly the exception of its body does. *)
Theorem process_path_releases_slot env dfile s :
  filepath dfile ∈ process_paths s ->
  let r := process_path env dfile s in
  process_paths (state_of r) = process_paths s ∖ {[filepath dfile]} /\
  (devel_debug env = false -> forall e, outcome_of r <> Raised e) /\
  (devel_debug env = true ->
   forall e, outcome_of r = Raised e <-> job_exc env dfile = Some e).
Proof.
  intros Hin r. subst r.
  destruct (process_path_shape env dfile) as (ys & eff & H).
  destruct (H s Hin) as (Hpp & _ & _ & _ & _ & _ & Hout).
  split; [exact Hpp|]. split.
  - intros Hd e. destruct (job_exc env dfile); [|apply Hout].
    rewrite Hout, Hd. discriminate.
  - intros Hd e. destruct (job_exc env dfile) as [e'|].
    + rewrite Hout, Hd. split; congruence.
    + split; [intros He; now destruct (Hout e) | discriminate].
Qed.

Lemma process_path_releases_slot_witness :
  process_paths (state_of (process_path env_error nwb (started nwb)))
  = process_paths (started nwb) ∖ {[filepath nwb]}.
Proof.
  refine (proj1 (process_path_releases_slot env_error nwb (started nwb) _)).
  cbn. set_solver.
Defined.

(** X12.  A job whose path is not in [process_paths] (a second file with
    the same path) ends with the [KeyError] of [process_paths.remove], in
    the default mode too, and leaves the set as it is. *)
Theorem process_path_missing_slot env dfile s :
  filepath dfile ∉ process_paths s ->
  outcome_of (process_path env dfile s) = Raised (Exn KeyError (py_repr (filepath dfile)))
  /\ process_paths (state_of (process_path env dfile s)) = process_paths s.
Proof.
  intros Hnin.
  destruct (uniform_process_path_body env dfile) as (ys & eff & o & Hbody).
  unfold process_path, try_finally, try_except. rewrite Hbody.
  unfold process_paths_remove, process_path_handler, gets, mbind, Gen_bind,
    set_upload_err, update_uploaded_paths, modify, yield, raise, mret, Gen_ret.
  destruct s as [err vok up pp cs]. cbn in Hnin |- *.
  destruct o as [[]| |e']; [| |destruct err; destruct (devel_debug env)]; cbn;
    rewrite bool_decide_eq_false_2 by exact Hnin; split; reflexivity.
Qed.

Lemma process_path_missing_slot_witness :
  outcome_of (process_path env_error nwb initial_State)
  = Raised (Exn KeyError "'/ds/sub-01/a.nwb'").
Proof.
  refine (proj1 (process_path_missing_slot env_error nwb initial_State _)).
  cbn. apply not_elem_of_empty.
Defined.

(** X13.  A job reads and writes no entry of [uploaded_paths] but the one
    of its own file: the entries of the other paths are as before, and the
    entry it leaves depends on the state only through the entry it
    found. *)
Theorem job_isolation env dfile s1 s2 :
  filepath dfile ∈ process_paths s1 -> filepath dfile ∈ process_paths s2 ->
  (forall k, k <> filepath dfile ->
     uploaded_paths (state_of (process_path env dfile s1)) !! k = uploaded_paths s1 !! k) /\
  (uploaded_paths s1 !! filepath dfile = uploaded_paths s2 !! filepath dfile ->
   uploaded_paths (state_of (process_path env dfile s1)) !! filepath dfile
   = uploaded_paths (state_of (process_path env dfile s2)) !! filepath dfile).
Proof.
  intros Hin1 Hin2. split.
  - intros k Hk. now apply process_path_other_entries.
  - now apply process_path_own_entry.
Qed.

Lemma job_isolation_witness :
  uploaded_paths (state_of (process_path env_error nwb (started nwb))) !! "/ds/other"
  = uploaded_paths (started nwb) !! "/ds/other".
Proof.
  refine (proj1 (job_isolation env_error nwb (started nwb) (started nwb) _ _)
            "/ds/other" _).
  - cbn. set_solver.
  - cbn. set_solver.
  - discriminate.
Defined.

(** X14.  In the default mode a job whose body raises ends its records with
    the ERROR record of the exception and appends the message to the error
    list of its file; a job whose body does not raise leaves the noted
    error and the error list of its file as they were. *)
Theorem job_error_recorded env dfile s :
  devel_debug env = false -> filepath dfile ∈ process_paths s ->
  let r := process_path env dfile s in
  let errors m := Uploaded_errors (getitem_default m (filepath dfile)) in
  match job_exc env dfile with
  | Some e =>
      last (yields_of r) = Some (error_file (str_exc e)) /\
      errors (uploaded_paths (state_of r)) = errors (uploaded_paths s) ++ [str_exc e]
  | None =>
      upload_err (state_of r) = upload_err s /\
      errors (uploaded_paths (state_of r)) = errors (uploaded_paths s)
  end.
Proof.
  intros Hd Hin r errors. subst r errors.
  destruct (process_path_shape env dfile) as (ys & eff & H).
  destruct (H s Hin) as (_ & Hue & _ & _ & Hup & Hys & _).
  rewrite Hup, Hue. cbn zeta. rewrite Hys, Hd.
  assert (Hm : Uploaded_errors (getitem_default
                  (match eff_size eff with
                   | Some v => set_size (filepath dfile) v (uploaded_paths s)
                   | None => uploaded_paths s
                   end) (filepath dfile))
               = Uploaded_errors (getitem_default (uploaded_paths s) (filepath dfile))).
  { destruct (eff_size eff); [|reflexivity].
    unfold set_size, getitem_default at 1. now rewrite lookup_insert_eq. }
  destruct (job_exc env dfile) as [e|].
  - split; [apply last_snoc|].
    unfold append_error, getitem_default at 1. rewrite lookup_insert_eq. cbn.
    now rewrite Hm.
  - split; [now destruct (upload_err s) | exact Hm].
Qed.

Lemma job_error_recorded_witness :
  last (yields_of (process_path env_error nwb (started nwb)))
  = Some (error_file "exists (same)").
Proof.
  assert (Hin : filepath nwb ∈ process_paths (started nwb))
    by (cbn; set_solver).
  pose proof (job_error_recorded env_error nwb (started nwb) eq_refl Hin) as H.
  cbn zeta in H.
  change (job_exc env_error nwb) with (Some (Exn FileExistsError "exists (same)")) in H.
  exact (proj1 H).
Defined.

(** * The order of the calls of a job *)

Lemma runs_quiet {A} (m : Gen A) :
  (forall s, calls (state_of (m s)) = calls s) -> runs [] m.
Proof.
  intros H s. exists []. rewrite H, app_nil_r. split; [reflexivity|]. split; [done|]. done.
Qed.

Lemma runs_ret {A} (a : A) : runs [] (mret a).
Proof. now apply runs_quiet. Qed.

Lemma runs_yield r : runs [] (yield r).
Proof. now apply runs_quiet. Qed.

Lemma runs_set_validate_ok b : runs [] (set_validate_ok b).
Proof. now apply runs_quiet. Qed.

Lemma runs_update_uploaded_paths f : runs [] (update_uploaded_paths f).
Proof. now apply runs_quiet. Qed.

Lemma runs_lift_result {A} (r : exn + A) : runs [] (lift_result r).
Proof. apply runs_quiet. now destruct r. Qed.

Lemma runs_raise {A} l e : runs l (@raise A e).
Proof.
  intros s. exists []. cbn. rewrite app_nil_r.
  split; [reflexivity|]. split; [apply prefix_nil | discriminate].
Qed.

Lemma runs_return {A} l : runs l (@return_ A).
Proof.
  intros s. exists []. cbn. rewrite app_nil_r.
  split; [reflexivity|]. split; [apply prefix_nil | discriminate].
Qed.

Lemma runs_log_call c : runs [c] (log_call c).
Proof. intros s. exists [c]. cbn. split; [reflexivity|]. split; done. Qed.

Lemma runs_bind {A B} l1 l2 l (m : Gen A) (k : A -> Gen B) :
  runs l1 m -> (forall a, runs l2 (k a)) -> l = l1 ++ l2 -> runs l (m ≫= k).
Proof.
  intros Hm Hk -> s. destruct (Hm s) as (cs & Hcs & Hpre & Hfull).
  unfold mbind, Gen_bind. destruct (m s) as [[ys s'] [a| |e]];
    unfold state_of, outcome_of in *; cbn in *.
  - destruct (Hk a s') as (cs' & Hcs' & Hpre' & Hfull').
    destruct (k a s') as [[ys' s''] o']. unfold state_of, outcome_of in *; cbn in *.
    rewrite (Hfull a eq_refl) in *.
    exists (l1 ++ cs'). rewrite Hcs', Hcs, app_assoc. split; [reflexivity|]. split.
    + now apply prefix_app.
    + intros b Hb. now rewrite (Hfull' b Hb).
  - exists cs. split; [exact Hcs|]. split; [now apply prefix_app_r | discriminate].
  - exists cs. split; [exact Hcs|]. split; [now apply prefix_app_r | discriminate].
Qed.

Lemma runs_upload_records strpath rs validating :
  runs [] (upload_records strpath rs validating).
Proof.
  apply runs_quiet. intros s.
  destruct (calls_in_upload_records (fun _ => False) strpath rs validating s)
    as (cs & -> & HF).
  destruct cs as [|c cs]; [now rewrite app_nil_r|]. now apply Forall_cons in HF as [[] _].
Qed.

Ltac runs_solve :=
  first
    [ apply runs_ret | apply runs_yield | apply runs_set_validate_ok
    | apply runs_update_uploaded_paths | apply runs_lift_result
    | apply runs_log_call | apply runs_upload_records
    | apply runs_raise | apply runs_return
    | eapply runs_bind; [runs_solve | intros ?; runs_solve | cbn [app]; reflexivity]
    | match goal with
      | |- runs _ (if ?c then _ else _) => destruct c; runs_solve
      | |- runs _ (match ?x with _ => _ end) => destruct x; runs_solve
      end ].

Lemma runs_process_path_body env dfile :
  isinstance_DandisetMetadataFile dfile = false ->
  runs (pipeline env dfile) (process_path_body env dfile).
Proof.
  intros HM.
  assert (HLA : isinstance_LocalAsset dfile = true).
  { unfold isinstance_LocalAsset, isinstance_DandisetMetadataFile in *.
    now destruct (kind dfile). }
  unfold process_path_body, pipeline. rewrite HM, HLA.
  destruct (String.eqb (validation env) "skip");
    destruct (isinstance_ZarrAsset dfile);
    lazy beta iota delta [andb negb]; cbn [app]; runs_solve.
Qed.

Lemma process_path_calls_body env dfile s :
  calls (state_of (process_path env dfile s))
  = calls (state_of (process_path_body env dfile s)).
Proof.
  unfold process_path, try_finally, try_except.
  destruct (process_path_body env dfile s) as [[ys [err vok up pp cs]] o].
  unfold process_paths_remove, process_path_handler, gets, mbind, Gen_bind,
    set_upload_err, update_uploaded_paths, modify, yield, raise, mret, Gen_ret.
  destruct o as [[]| |e]; [| |destruct err; destruct (devel_debug env)]; cbn;
    destruct (bool_decide _); reflexivity.
Qed.

(** X15.  The collaborators of a local asset are called in the order of the
    code, none twice and none skipped: the calls of a job are a prefix of
    validation, digest (not for a Zarr), remote lookup, metadata extraction,
    transfer; all of them when the body runs to its end; and the transfer
    is only started when all the calls before it were made. *)
Theorem job_calls_pipeline env dfile s :
  isinstance_DandisetMetadataFile dfile = false ->
  exists cs,
    calls (state_of (process_path env dfile s)) = calls s ++ cs /\
    cs `prefix_of` pipeline env dfile /\
    (outcome_of (process_path_body env dfile s) = Normal tt -> cs = pipeline env dfile) /\
    (IterUpload (filepath dfile) ∈ cs -> cs = pipeline env dfile).
Proof.
  intros HM. destruct (runs_process_path_body env dfile HM s) as (cs & Hcs & Hpre & Hfull).
  exists cs. rewrite process_path_calls_body.
  split; [exact Hcs|]. split; [exact Hpre|]. split; [exact (Hfull tt)|].
  intros HIU. destruct Hpre as [rest Hrest].
  assert (Hnd : NoDup (pipeline env dfile)).
  { unfold pipeline. destruct (String.eqb _ _); destruct (isinstance_ZarrAsset dfile);
      cbn; repeat (apply NoDup_cons; split; [set_solver|]); apply NoDup_nil_2. }
  assert (Hlast : last (pipeline env dfile) = Some (IterUpload (filepath dfile))).
  { unfold pipeline. destruct (String.eqb _ _); destruct (isinstance_ZarrAsset dfile);
      reflexivity. }
  destruct rest as [|c rest] using rev_ind; [now rewrite app_nil_r in Hrest|].
  exfalso. rewrite Hrest, app_assoc, last_snoc in Hlast. injection Hlast as ->.
  rewrite Hrest in Hnd. apply NoDup_app in Hnd as (_ & Hdisj & _).
  apply (Hdisj _ HIU). set_solver.
Qed.

Lemma job_calls_pipeline_witness :
  exists cs,
    calls (state_of (process_path env_error nwb (started nwb)))
    = calls (started nwb) ++ cs /\
    cs `prefix_of` pipeline env_error nwb.
Proof.
  destruct (job_calls_pipeline env_error nwb (started nwb) eq_refl) as (cs & H1 & H2 & _).
  exists cs. split; assumption.
Defined.

Lemma runs_bind_stop {A B} l (m : Gen A) (k : A -> Gen B) :
  runs l m -> (forall s a, outcome_of (m s) <> Normal a) -> runs l (m ≫= k).
Proof.
  intros Hm Hstop s. destruct (Hm s) as (cs & Hcs & Hpre & _). specialize (Hstop s).
  unfold mbind, Gen_bind. destruct (m s) as [[ys s'] [a| |e]];
    unfold state_of, outcome_of in *; cbn in *.
  - now destruct (Hstop a).
  - exists cs. split; [exact Hcs|]. split; [exact Hpre | discriminate].
  - exists cs. split; [exact Hcs|]. split; [exact Hpre | discriminate].
Qed.

Lemma bind_return_stops {A B} (m : Gen A) s (b : B) :
  outcome_of ((m ≫= fun _ => return_) s) <> Normal b.
Proof.
  unfold mbind, Gen_bind, return_, outcome_of.
  destruct (m s) as [[ys s'] [a| |e]]; cbn; discriminate.
Qed.

(** X16.  When the extraction of the metadata fails, whatever the digest
    is, the transfer is never started: the job makes no [iter_upload] call
    and its body does not run to its end. *)
Theorem metadata_failure_no_transfer env dfile s :
  isinstance_DandisetMetadataFile dfile = false ->
  (forall d, exists e, get_metadata dfile d (allow_any_path env) = inl e) ->
  exists cs,
    calls (state_of (process_path env dfile s)) = calls s ++ cs /\
    (IterUpload (filepath dfile) ∉ cs) /\
    outcome_of (process_path_body env dfile s) <> Normal tt.
Proof.
  intros HM Hmeta.
  assert (HLA : isinstance_LocalAsset dfile = true).
  { unfold isinstance_LocalAsset, isinstance_DandisetMetadataFile in *.
    now destruct (kind dfile). }
  assert (Hruns : runs (removelast (pipeline env dfile)) (process_path_body env dfile)).
  { unfold process_path_body, pipeline. rewrite HM, HLA.
    destruct (String.eqb (validation env) "skip");
      destruct (isinstance_ZarrAsset dfile);
      lazy beta iota delta [andb negb]; cbn [app removelast];
      repeat first
        [ match goal with
          | |- runs _ ((match get_metadata dfile ?d ?b with _ => _ end) ≫= _) =>
              let e := fresh "e" in let He := fresh "He" in
              destruct (Hmeta d) as [e He]; rewrite He;
              apply runs_bind_stop; [apply runs_raise | intros; discriminate]
          | |- runs _ (_ ≫= _) =>
              eapply runs_bind; [runs_solve | intros ? | cbn [app]; reflexivity]
          end ]. }
  destruct (Hruns s) as (cs & Hcs & Hpre & Hfull).
  destruct (runs_process_path_body env dfile HM s) as (cs' & Hcs' & _ & Hfull').
  assert (cs' = cs) as -> by (rewrite Hcs in Hcs'; now apply app_inv_head in Hcs').
  exists cs. rewrite process_path_calls_body. split; [exact Hcs|]. split.
  - intros HIU. destruct Hpre as [rest Hrest].
    assert (HIU' : IterUpload (filepath dfile) ∈ removelast (pipeline env dfile))
      by (rewrite Hrest; set_solver).
    revert HIU'. unfold pipeline.
    destruct (String.eqb _ _); destruct (isinstance_ZarrAsset dfile); cbn; set_solver.
  - intros Ho. pose proof (Hfull tt Ho) as H1. pose proof (Hfull' tt Ho) as H2.
    rewrite H1 in H2. revert H2. unfold pipeline.
    destruct (String.eqb _ _); destruct (isinstance_ZarrAsset dfile); discriminate.
Qed.

Lemma metadata_failure_no_transfer_witness :
  exists cs,
    calls (state_of (process_path env_error unextractable (started unextractable)))
    = calls (started unextractable) ++ cs /\
    IterUpload (filepath unextractable) ∉ cs.
Proof.
  destruct (metadata_failure_no_transfer env_error unextractable (started unextractable) eq_refl
              (fun d => ex_intro _ (Exn OtherError "cannot read") eq_refl))
    as (cs & H1 & H2 & _).
  exists cs. split; assumption.
Defined.

(** * Jobs that end before the transfer *)

(** What [process_path] makes of a body that does not raise. *)
Lemma process_path_not_raised env dfile s ys s1 o :
  process_path_body env dfile s = (ys, s1, o) ->
  (forall e, o <> Raised e) ->
  filepath dfile ∈ process_paths s1 ->
  process_path env dfile s
  = (ys, update_process_paths (fun ps => ps ∖ {[filepath dfile]}) s1, o).
Proof.
  intros Hbody Ho Hin.
  unfold process_path, try_finally, try_except. rewrite Hbody.
  unfold process_paths_remove.
  destruct o as [[]| |e]; [| |now destruct (Ho e)];
    rewrite bool_decide_eq_true_2 by exact Hin; now rewrite app_nil_r.
Qed.

Lemma substring_length n s : (String.length (String.substring 0 n s) <= n)%nat.
Proof.
  revert s. induction n as [|n IH]; intros [|c s]; cbn; try lia.
  specialize (IH s). lia.
Qed.

(** X17.  A file whose size cannot be read is given up at once: the job
    ends with an [UploadError] whose message is "File not found" for a
    [FileNotFoundError] and otherwise the first 50 characters of the
    exception's text, no collaborator is called, and in the default mode
    the ERROR record is the only record of the job. *)
Theorem size_failure env dfile exc s :
  isinstance_LocalDirectoryAsset dfile = false ->
  file_size dfile = inl exc ->
  exists msg,
    job_exc env dfile = Some (Exn UploadError msg) /\
    (String.length msg <= 50)%nat /\
    msg = (if is_instance exc FileNotFoundError then "File not found"
           else String.substring 0 50 (str_exc exc)) /\
    calls (state_of (process_path env dfile s)) = calls s /\
    (devel_debug env = false -> filepath dfile ∈ process_paths s ->
     yields_of (process_path env dfile s) = [error_file msg]).
Proof.
  intros Hdir Hsize.
  set (msg := if is_instance exc FileNotFoundError then "File not found"
              else String.substring 0 50 (str_exc exc)).
  assert (Hbody : forall s0, process_path_body env dfile s0
                             = ([], s0, Raised (Exn UploadError msg))).
  { intros s0. unfold process_path_body. rewrite Hdir, Hsize. subst msg.
    destruct (is_instance exc FileNotFoundError); gen_eval; reflexivity. }
  exists msg. split; [unfold job_exc; now rewrite Hbody|].
  split.
  { subst msg. destruct (is_instance exc FileNotFoundError);
      [cbn; lia | apply substring_length]. }
  split; [reflexivity|]. split.
  - rewrite process_path_calls_body, Hbody. reflexivity.
  - intros Hd Hin. rewrite (process_path_raised env dfile s _ _ _ (Hbody s) Hin).
    unfold yields_of. cbn. now rewrite Hd.
Qed.

Lemma size_failure_witness :
  job_exc env_error unreadable = Some (Exn UploadError "File not found").
Proof.
  destruct (size_failure env_error unreadable _ initial_State eq_refl eq_refl)
    as (msg & Hexc & _ & -> & _).
  exact Hexc.
Defined.

(** X18.  The metadata file of the dandiset is neither validated, digested,
    looked up nor transferred: the only call its job can make is
    [set_raw_metadata], and only when [upload_dandiset_metadata] is set.
    When it is not, and the size can be read, the job is the size record
    followed by the skip "should be edited online", and nothing else
    changes. *)
Theorem metadata_file_job env dfile s :
  isinstance_DandisetMetadataFile dfile = true ->
  (exists cs,
     calls (state_of (process_path env dfile s)) = calls s ++ cs /\
     cs `prefix_of` (if upload_dandiset_metadata env then [SetRawMetadata] else [])) /\
  (forall n, file_size dfile = inr n -> upload_dandiset_metadata env = false ->
     process_path_body env dfile s
     = ([[("size", VInt n)]; skip_file "should be edited online"], s, Returned)).
Proof.
  intros HM.
  assert (HLA : isinstance_LocalAsset dfile = false).
  { unfold isinstance_LocalAsset, isinstance_DandisetMetadataFile in *.
    now destruct (kind dfile). }
  assert (Hdir : isinstance_LocalDirectoryAsset dfile = false).
  { unfold isinstance_LocalDirectoryAsset, isinstance_DandisetMetadataFile in *.
    now destruct (kind dfile). }
  split.
  - assert (Hruns : runs (if upload_dandiset_metadata env then [SetRawMetadata] else [])
                         (process_path_body env dfile)).
    { unfold process_path_body. rewrite HM, HLA, Hdir.
      lazy beta iota delta [andb negb].
      eapply runs_bind; [runs_solve | intros ? | cbn [app]; reflexivity].
      eapply runs_bind; [runs_solve | intros ? | cbn [app]; reflexivity].
      apply runs_bind_stop; [|intros; apply bind_return_stops].
      destruct (upload_dandiset_metadata env); runs_solve. }
    destruct (Hruns s) as (cs & Hcs & Hpre & _).
    exists cs. rewrite process_path_calls_body. split; assumption.
  - intros n Hsize Hflag. unfold process_path_body.
    rewrite HM, HLA, Hdir, Hsize, Hflag. destruct s. gen_eval. reflexivity.
Qed.

Lemma metadata_file_job_witness :
  process_path_body env_error yaml initial_State
  = ([[("size", VInt 300)]; skip_file "should be edited online"], initial_State, Returned).
Proof.
  exact (proj2 (metadata_file_job env_error yaml initial_State eq_refl) 300 eq_refl eq_refl).
Defined.

(** X19.  A local asset that fails a required validation is given up before
    anything else is asked about it: the job ends with the [UploadError]
    "failed validation", [validate_ok] is cleared, and the validation is
    the only collaborator call. *)
Theorem validation_failure env dfile vs s :
  isinstance_DandisetMetadataFile dfile = false ->
  (isinstance_LocalDirectoryAsset dfile = true \/ exists n, file_size dfile = inr n) ->
  validation env = "require" ->
  get_validation_errors dfile = inr vs ->
  (exists v, v ∈ vs /\ severity v = ERROR) ->
  job_exc env dfile = Some (Exn UploadError "failed validation") /\
  validate_ok (state_of (process_path env dfile s)) = false /\
  calls (state_of (process_path env dfile s))
    = calls s ++ [GetValidationErrors (filepath dfile)].
Proof.
  intros HM Hsize Hval Hvs (v & Hv & Hsev).
  assert (HLA : isinstance_LocalAsset dfile = true).
  { unfold isinstance_LocalAsset, isinstance_DandisetMetadataFile in *.
    now destruct (kind dfile). }
  assert (Hfilter : exists v0 l, filter (fun s => is_ERROR s = true) vs = v0 :: l).
  { assert (Hin : v ∈ filter (fun s => is_ERROR s = true) vs).
    { apply list_elem_of_filter. split; [|exact Hv]. unfold is_ERROR. now rewrite Hsev. }
    destruct (filter _ vs) as [|v0 l]; [now apply elem_of_nil in Hin | eauto]. }
  destruct Hfilter as (v0 & l & Hfilter).
  assert (Hb : exists b, isinstance_LocalDirectoryAsset dfile = b /\
                         (b = true \/ exists n, b = false /\ file_size dfile = inr n)).
  { destruct (isinstance_LocalDirectoryAsset dfile); [exists true; auto|].
    destruct Hsize as [?|(n & Hn)]; [discriminate|]. exists false. eauto. }
  destruct Hb as (b & Hdir & Hb).
  assert (Hbody : exists ys, forall s0,
    process_path_body env dfile s0
    = (ys,
       {| upload_err := upload_err s0; validate_ok := false;
          uploaded_paths := uploaded_paths s0; process_paths := process_paths s0;
          calls := calls s0 ++ [GetValidationErrors (filepath dfile)] |},
       Raised (Exn UploadError "failed validation"))).
  { unfold process_path_body. rewrite HM, HLA, Hdir, Hval, Hvs.
    destruct Hb as [-> | (n & -> & ->)]; eexists; intros [err vok up pp cs0];
      repeat progress (gen_eval; try rewrite Hfilter); cbn [String.eqb Ascii.eqb Bool.eqb];
      repeat progress (gen_eval; try rewrite Hfilter); reflexivity. }
  destruct Hbody as [ys Hbody].
  split; [unfold job_exc; now rewrite Hbody|]. split.
  - unfold process_path, try_finally, try_except. rewrite Hbody.
    unfold process_paths_remove, process_path_handler, gets, mbind, Gen_bind,
      set_upload_err, update_uploaded_paths, modify, yield, raise, mret, Gen_ret.
    destruct s as [err vok up pp cs]. cbn.
    destruct err; destruct (devel_debug env); cbn; destruct (bool_decide _); reflexivity.
  - rewrite process_path_calls_body, Hbody. reflexivity.
Qed.

Lemma validation_failure_witness :
  job_exc env_error invalid = Some (Exn UploadError "failed validation").
Proof.
  refine (proj1 (validation_failure env_error invalid _ initial_State eq_refl
                   (or_intror (ex_intro _ 100 eq_refl)) eq_refl eq_refl _)).
  exists {| severity := ERROR; message := "not an NWB file" |}.
  split; [repeat constructor | reflexivity].
Defined.

Lemma process_path_body_skipped env dfile extant d out :
  isinstance_ZarrAsset dfile = false ->
  isinstance_DandisetMetadataFile dfile = false ->
  get_asset_by_path env (path dfile) = inr extant ->
  get_digest dfile = inr d ->
  (isinstance_LocalDirectoryAsset dfile = true \/ exists n, file_size dfile = inr n) ->
  (validation env = "skip" \/
   exists vs, get_validation_errors dfile = inr vs /\
              (filter (fun s => is_ERROR s = true) vs = [] \/ validation env <> "require")) ->
  check_replace_asset dfile extant (existing env) (Some d) = inr (false, out) ->
  exists ys cs,
    (forall s, process_path_body env dfile s = (ys, log_calls cs s, Returned)) /\
    last ys = Some out /\
    exists cs0, cs = cs0 ++ [GetDigest (filepath dfile); GetAssetByPath (path dfile)].
Proof.
  intros HZ HM Hlookup Hdigest Hsize Hval Hcheck.
  assert (HLA : isinstance_LocalAsset dfile = true).
  { unfold isinstance_LocalAsset, isinstance_DandisetMetadataFile in *.
    now destruct (kind dfile). }
  unfold process_path_body. rewrite HZ, HM, HLA, Hlookup, Hdigest.
  assert (Hcases :
    String.eqb (validation env) "skip" = true \/
    exists vs, get_validation_errors dfile = inr vs /\
      String.eqb (validation env) "skip" = false /\
      (filter (fun s => is_ERROR s = true) vs = [] \/
       exists v l, filter (fun s => is_ERROR s = true) vs = v :: l /\
                   String.eqb (validation env) "require" = false)).
  { destruct (String.eqb_spec (validation env) "skip") as [Hs|Hs]; [now left|].
    destruct Hval as [?| (vs & Hvs & Hf)]; [contradiction|].
    right. exists vs. repeat split; [exact Hvs|].
    destruct (filter (fun s => is_ERROR s = true) vs) as [|v l]; [now left|].
    right. exists v, l. split; [reflexivity|].
    destruct Hf as [?|Hr]; [discriminate|].
    now destruct (String.eqb_spec (validation env) "require"). }
  clear Hval.
  assert (Hb : exists b, isinstance_LocalDirectoryAsset dfile = b /\
                         (b = true \/ exists n, b = false /\ file_size dfile = inr n)).
  { destruct (isinstance_LocalDirectoryAsset dfile); [exists true; auto|].
    destruct Hsize as [?|(n & Hn)]; [discriminate|]. exists false. eauto. }
  destruct Hb as (b & -> & Hb). clear Hsize.
  destruct Hb as [-> | (n & -> & ->)];
    destruct Hcases as [Hskip | (vs & -> & Hskip & [Hfilter | (v & l & Hfilter & Hreq)])];
    rewrite Hskip; try rewrite Hreq;
    eexists _, _;
    (split;
     [ intros [err vok up pp cs0];
       repeat progress (gen_eval; try rewrite Hfilter; try rewrite Hcheck);
       rewrite <- ?app_assoc; cbn [app]; reflexivity
     | split; [reflexivity | first [now exists [] | now eexists [_] ] ] ]).
Qed.

(** X20.  A file that the engine decides to skip (its size, validation and
    digest steps having succeeded) is left alone: the decision is the last
    record of the job, the job makes no call after the remote lookup, and
    the noted error, the validation flag and [uploaded_paths] are as
    before; only the path leaves [process_paths]. *)
Theorem skipped_job env dfile extant d out s :
  isinstance_ZarrAsset dfile = false ->
  isinstance_DandisetMetadataFile dfile = false ->
  get_asset_by_path env (path dfile) = inr extant ->
  get_digest dfile = inr d ->
  (isinstance_LocalDirectoryAsset dfile = true \/ exists n, file_size dfile = inr n) ->
  (validation env = "skip" \/
   exists vs, get_validation_errors dfile = inr vs /\
              (filter (fun s => is_ERROR s = true) vs = [] \/ validation env <> "require")) ->
  check_replace_asset dfile extant (existing env) (Some d) = inr (false, out) ->
  filepath dfile ∈ process_paths s ->
  let r := process_path env dfile s in
  outcome_of r = Returned /\
  last (yields_of r) = Some out /\
  upload_err (state_of r) = upload_err s /\
  validate_ok (state_of r) = validate_ok s /\
  uploaded_paths (state_of r) = uploaded_paths s /\
  process_paths (state_of r) = process_paths s ∖ {[filepath dfile]} /\
  exists cs0, calls (state_of r)
              = calls s ++ cs0 ++ [GetDigest (filepath dfile); GetAssetByPath (path dfile)].
Proof.
  intros HZ HM Hlookup Hdigest Hsize Hval Hcheck Hin r. subst r.
  destruct (process_path_body_skipped env dfile extant d out HZ HM Hlookup Hdigest
              Hsize Hval Hcheck) as (ys & cs & Hbody & Hlast & cs0 & ->).
  rewrite (process_path_not_raised env dfile s _ _ _ (Hbody s)); [|discriminate|exact Hin].
  unfold outcome_of, yields_of, state_of. cbn.
  repeat split; try assumption. now exists cs0.
Qed.

Lemma skipped_job_witness :
  last (yields_of (process_path (env "refresh" false [same]) nwb (started nwb)))
  = Some (skip_file "file exists").
Proof.
  refine (proj1 (proj2 (skipped_job (env "refresh" false [same]) nwb same (etag "d1")
            (skip_file "file exists") (started nwb) eq_refl eq_refl eq_refl eq_refl
            (or_intror (ex_intro _ 100 eq_refl))
            (or_intror (ex_intro _ [] (conj eq_refl (or_introl eq_refl))))
            eq_refl _))).
  cbn. set_solver.
Defined.

(** * Progress of the two loops *)

Lemma upload_serial_shape env files :
  forall s rows, process_paths s = ∅ ->
    match upload_serial env files s rows with
    | Finished rows' s' =>
        length rows' = (length rows + length files)%nat /\ process_paths s' = ∅
    | Propagated _ rows' _ _ => (length rows' < length rows + length files)%nat
    | Blocked _ _ => False
    end.
Proof.
  induction files as [|f files IH]; intros s rows Hempty.
  - cbn. split; [lia | exact Hempty].
  - cbn [upload_serial]. rewrite Hempty, size_empty. cbn [Nat.leb max_in_flight].
    pose proof (process_path_started env f s Hempty) as (Hpp & _ & _).
    destruct (process_path env f (process_paths_add f s)) as [[ys s2] o].
    cbn in Hpp. cbn [length].
    destruct o as [[]| |exc]; [| |destruct (is_instance exc ValueError)];
      try (specialize (IH s2 (rows ++ [(rec_of env f, ys)]) Hpp);
           rewrite length_app in IH; cbn in IH;
           destruct (upload_serial env files s2 _); [destruct IH; split; [lia|done] | lia | done]).
    + specialize (IH s2 (rows ++ [(rec_of env f ++ error_file (str_exc exc), ys)]) Hpp).
      rewrite length_app in IH. cbn in IH.
      destruct (upload_serial env files s2 _); [destruct IH; split; [lia|done] | lia | done].
    + lia.
Qed.

(** X21.  The serial loop never waits for a free slot: started on the
    initial state it either passes every file, with one row per file and
    an empty [process_paths] at the end, or is left by an exception before
    the last row; so [upload] in debug mode always returns or raises. *)
Theorem upload_serial_never_blocked env dandi_files :
  (forall rows s, upload_serial env dandi_files initial_State [] <> Blocked rows s) /\
  (forall rows s, upload_serial env dandi_files initial_State [] = Finished rows s ->
                  length rows = length dandi_files /\ process_paths s = ∅) /\
  (forall e rows printed s,
     upload_serial env dandi_files initial_State [] = Propagated e rows printed s ->
     (length rows < length dandi_files)%nat) /\
  upload_debug env dandi_files <> None.
Proof.
  pose proof (upload_serial_shape env dandi_files initial_State [] eq_refl) as H.
  unfold upload_debug.
  destruct (upload_serial env dandi_files initial_State []) as [rows s|e rows ys s|rows s].
  - split; [discriminate|]. split; [intros ? ? [= <- <-]; exact H|].
    split; discriminate.
  - split; [discriminate|]. split; [discriminate|].
    split; [intros ? ? ? ? [= <- <- <- <-]; exact H | discriminate].
  - destruct H.
Qed.

Lemma steps_trans env σ1 σ2 σ3 : steps env σ1 σ2 -> steps env σ2 σ3 -> steps env σ1 σ3.
Proof.
  intros H12 H23. induction H23 as [σ|σ2 σ3 σ4 Hs IH Hst]; [exact H12|].
  eapply steps_step; [now apply IH | exact Hst].
Qed.

(** X22.  The concurrent loop cannot get stuck: in every state of a run
    that is not yet over, a step other than sleeping is possible (a job
    ends, or, when none is in flight, the next file is handed over), and
    from every state of a run the run can be brought to its end without
    any further sleep. *)
Theorem concurrent_progress env dandi_files σ :
  NoDup (filepath <$> dandi_files) ->
  steps env (initial_Sched dandi_files) σ ->
  (~ all_done σ -> exists σ', step env σ σ' /\ waited_ms σ' = waited_ms σ) /\
  (exists σ', steps env σ σ' /\ all_done σ' /\ waited_ms σ' = waited_ms σ).
Proof.
  intros Hnd Hs.
  assert (Hprog : forall σ, steps env (initial_Sched dandi_files) σ -> ~ all_done σ ->
            exists σ', step env σ σ' /\ waited_ms σ' = waited_ms σ /\
              (2 * length (pending σ') + length (in_flight σ')
               < 2 * length (pending σ) + length (in_flight σ))%nat).
  { clear σ Hs. intros σ Hs Hnot.
    destruct (in_flight σ) as [|f l] eqn:Hfl.
    - destruct (pending σ) as [|f rest] eqn:Hpend; [now destruct Hnot|].
      exists (dispatched f rest σ). split; [|split; [reflexivity|]].
      + apply step_dispatch; [exact Hpend|].
        rewrite <- (in_flight_size env dandi_files σ Hnd (Inv_steps _ _ _ Hnd Hs)), Hfl.
        cbn. unfold max_in_flight. lia.
      + cbn. rewrite Hfl. cbn. lia.
    - exists (exhausted env [] f l σ). split; [|split; [reflexivity|]].
      + now apply (step_job env σ [] f l).
      + cbn. lia. }
  split; [intros Hnot; destruct (Hprog σ Hs Hnot) as (σ' & ? & ? & _); eauto|].
  remember (2 * length (pending σ) + length (in_flight σ))%nat as n eqn:Hn.
  revert σ Hs Hn. induction n as [n IH] using lt_wf_ind. intros σ Hs Hn.
  destruct (pending σ) as [|f rest] eqn:Hpend; [destruct (in_flight σ) as [|g l] eqn:Hfl|].
  - exists σ. split; [apply steps_refl|]. split; [split; assumption | reflexivity].
  - destruct (Hprog σ Hs) as (σ1 & Hst & Hw & Hlt).
    { intros [_ H]. rewrite Hfl in H. discriminate. }
    rewrite Hpend, Hfl in Hlt.
    destruct (IH _ ltac:(subst n; exact Hlt) σ1 (steps_step _ _ _ _ Hs Hst) eq_refl)
      as (σ' & Hs' & Hdone & Hw').
    exists σ'. split; [eapply steps_cons; eauto|]. split; [exact Hdone | congruence].
  - destruct (Hprog σ Hs) as (σ1 & Hst & Hw & Hlt).
    { intros [H _]. rewrite Hpend in H. discriminate. }
    rewrite Hpend in Hlt.
    destruct (IH _ ltac:(subst n; exact Hlt) σ1 (steps_step _ _ _ _ Hs Hst) eq_refl)
      as (σ' & Hs' & Hdone & Hw').
    exists σ'. split; [eapply steps_cons; eauto|]. split; [exact Hdone | congruence].
Qed.

Lemma concurrent_progress_witness :
  exists σ', steps env_error sched_both σ' /\ all_done σ' /\
             waited_ms σ' = waited_ms sched_both.
Proof.
  assert (Hnd : NoDup (filepath <$> [nwb; nwb2])) by compute_done.
  exact (proj2 (concurrent_progress env_error [nwb; nwb2] sched_both Hnd steps_sched_both)).
Defined.

(** * What delete-sync may delete *)

(** X23.  Whenever the final phase returns, the batch had no error, and the
    only thing the phase has done is to delete remote assets: none unless
    [sync] is set and the user confirmed, and each of them listed under the
    prefix, without a local file, and under one of the input paths (or the
    input path is the dandiset itself). *)
Theorem delete_sync_safe env s s' :
  upload_finish env s = inr s' ->
  upload_err s = None /\
  upload_err s' = upload_err s /\ validate_ok s' = validate_ok s /\
  uploaded_paths s' = uploaded_paths s /\ process_paths s' = process_paths s /\
  exists deleted,
    calls s' = calls s ++ map (fun a => Delete (asset_path a)) deleted /\
    (deleted <> [] -> sync env = true /\ confirm env = true) /\
    Forall (fun a =>
              path_exists env (asset_path a) = false /\
              (exists prefix, a ∈ get_assets_with_path_prefix env prefix) /\
              exists p, p ∈ relpaths_of env /\
                        (p = "" \/ path_is_subpath env (asset_path a) p = true))
           deleted.
Proof.
  unfold upload_finish. destruct (upload_err s) eqn:Herr; [discriminate|].
  intros Hfin. split; [reflexivity|]. revert Hfin.
  assert (Hnone : s = s' ->
    upload_err s' = None /\ validate_ok s' = validate_ok s /\
    uploaded_paths s' = uploaded_paths s /\ process_paths s' = process_paths s /\
    exists deleted,
      calls s' = calls s ++ map (fun a => Delete (asset_path a)) deleted /\
      (deleted <> [] -> sync env = true /\ confirm env = true) /\
      Forall (fun a =>
                path_exists env (asset_path a) = false /\
                (exists prefix, a ∈ get_assets_with_path_prefix env prefix) /\
                exists p, p ∈ relpaths_of env /\
                          (p = "" \/ path_is_subpath env (asset_path a) p = true))
             deleted).
  { intros <-. split; [exact Herr|]. do 3 (split; [reflexivity|]).
    exists []. cbn. rewrite app_nil_r.
    split; [reflexivity|]. split; [now intros [] | constructor]. }
  destruct (sync env) eqn:Hsync; [|intros [= <-]; now apply Hnone].
  unfold delete_sync. destruct (reduce _ _) as [e|path_prefix]; [discriminate|].
  destruct (to_delete_of env (relpaths_of env) path_prefix) as [|a l] eqn:Htd;
    [intros [= <-]; now apply Hnone|].
  destruct (confirm env) eqn:Hconfirm; [|intros [= <-]; now apply Hnone].
  intros [= <-]. cbn. split; [exact Herr|]. do 3 (split; [reflexivity|]).
  exists (a :: l). split; [reflexivity|]. split; [intros _; now split|].
  rewrite <- Htd. apply Forall_forall. intros x Hx.
  unfold to_delete_of in Hx. apply list_elem_of_filter in Hx as [Hp Hx].
  apply andb_true_iff in Hp as [Hany Hgone].
  split; [now apply negb_true_iff in Hgone|]. split; [eauto|].
  apply existsb_exists in Hany as (p & Hp & Hsub). exists p.
  split; [now apply list_elem_of_In|].
  apply orb_true_iff in Hsub as [Heq | Hsub]; [left; now apply String.eqb_eq | now right].
Qed.

Lemma delete_sync_safe_witness :
  upload_err initial_State = None.
Proof.
  exact (proj1 (delete_sync_safe
           (env_sync "refresh" ["sub-01"] [remote "sub-01/gone.nwb" (Some 1000) "d9"])
           initial_State
           (log_calls [Delete "sub-01/gone.nwb"] initial_State) eq_refl)).
Defined.
